(** * FastChain reporter: a shallow embedding of [fastchain/reporter.py]

    The module under study defines the [Severity] vocabulary, the [Failure]
    exception, the frozen [FailureData] record, the default handler
    [FailureLogger], the hierarchical [_Reporter] and the alternate
    [Reporter] variant.

    Python objects that are mutated or shared (dictionaries, the alternate
    [Reporter] instances, loggers of the [logging] registry) live in explicit
    stores indexed by locations, so that identity and aliasing can be stated.
    Everything else is a value. *)

From Stdlib Require Import ZArith Ascii.
From stdpp Require Import gmap strings list fin_maps pretty.

(** stdpp's notations: [+:+] concatenates strings, [++] lists. *)

(** ** Python values that occur as names and as detail payloads *)

Inductive Severity := OPTIONAL | NORMAL | REQUIRED.

(** [Severity] is an [IntEnum]: OPTIONAL = -1, NORMAL = 0, REQUIRED = 1. *)
Definition Severity_value (s : Severity) : Z :=
  match s with OPTIONAL => (-1)%Z | NORMAL => 0%Z | REQUIRED => 1%Z end.

Global Instance Severity_eq_dec : EqDecision Severity.
Proof. solve_decision. Defined.

Inductive PyVal :=
| VNone
| VBool (b : bool)
| VInt (z : Z)
| VStr (s : string)
| VSev (s : Severity).

Global Instance PyVal_eq_dec : EqDecision PyVal.
Proof. solve_decision. Defined.

(** Truth value testing, as used by [if name] and [a and b]. *)
Definition truthy (v : PyVal) : bool :=
  match v with
  | VNone => false
  | VBool b => b
  | VInt z => negb (Z.eqb z 0)
  | VStr s => negb (String.eqb s "")
  | VSev s => negb (Z.eqb (Severity_value s) 0)
  end.

(** [str(v)], which is also what an f-string placeholder [{v}] produces for
    these values; an [IntEnum] member formats as its integer value. *)
Definition py_str (v : PyVal) : string :=
  match v with
  | VNone => "None"
  | VBool true => "True"
  | VBool false => "False"
  | VInt z => pretty z
  | VStr s => s
  | VSev s => pretty (Severity_value s)
  end.

(** Objects that are mutated or shared are referred to by location. *)
Abbreviation loc := positive.

(** What a dictionary holds ([dict[str, Any]]): a value as above, or a
    reference to a mutable object, here another dictionary of the store.
    Building a dictionary from others copies the references, not the objects
    they refer to. *)
Inductive DVal :=
| Scalar (v : PyVal)
| Ref (l : loc).

(** A dictionary with string keys; object identity of dictionaries is given
    by the location under which they are stored. *)
Abbreviation Dict := (gmap string DVal).
Abbreviation DictStore := (gmap loc Dict).

Definition deref (σ : DictStore) (l : loc) : Dict := default ∅ (σ !! l).

(** [{**a, **b}]: a new dictionary in which the entries of [b] replace those
    of [a]; stdpp's union keeps the left operand's entries. *)
Definition unpack2 (a b : Dict) : Dict := b ∪ a.

(** ** Exceptions *)

(** The part of Python's exception hierarchy the module distinguishes.
    [Failure(description, **details)] passes its description to
    [Exception.__init__], so its string form is the description;
    [OtherException] is any other [Exception], given by its class name and its
    string form. A [BaseException] is either an [Exception] or one of the
    classes outside it (KeyboardInterrupt, SystemExit, GeneratorExit). *)
Inductive Exception :=
| Failure (description : string) (details : Dict)
| OtherException (type_name : string) (msg : string).

Inductive BaseException :=
| IsException (e : Exception)
| NotException (type_name : string) (msg : string).

Definition str_of_exception (e : Exception) : string :=
  match e with Failure d _ => d | OtherException _ m => m end.

(** [type(e).__name__] *)
Definition type_name_of (e : Exception) : string :=
  match e with Failure _ _ => "Failure" | OtherException n _ => n end.

(** ** FailureData *)

Abbreviation Time := nat.

Module FailureData.
(** The dataclass is declared [frozen=True, slots=True]. [source] is what
    [_Reporter.name] returned and [severity] what [_Reporter.severity]
    returned, both of which may be [None]; [details] refers to the
    dictionary object built by [report]. *)
Record t := mk {
  source : option string;
  description : string;
  datetime : Time;
  severity : option Severity;
  details : loc
}.

Inductive field := f_source | f_description | f_datetime | f_severity | f_details.

(** [__setattr__] and [__delattr__] generated for a frozen dataclass raise
    [FrozenInstanceError] for every field and never store anything. *)
Definition __setattr__ (self : t) (f : field) (v : PyVal) : t + Exception :=
  inr (OtherException "FrozenInstanceError"
         ("cannot assign to field '" +:+
          match f with
          | f_source => "source" | f_description => "description"
          | f_datetime => "datetime" | f_severity => "severity"
          | f_details => "details"
          end +:+ "'")).
End FailureData.

Global Instance FailureData_eq_dec : EqDecision FailureData.t.
Proof. solve_decision. Defined.

(** ** The world: dictionary objects, handler invocations, the clock *)

(** [handled] lists the [FailureData] objects passed to a handler, oldest
    first; [clock] is what [datetime.now()] returns. *)
Record World := mkWorld {
  dicts : DictStore;
  handled : list FailureData.t;
  clock : Time
}.

Inductive Result (A : Type) :=
| Return (a : A)
| Raise (e : BaseException).
Arguments Return {A} a.
Arguments Raise {A} e.

(** Computations that read and write the world and may raise. *)
Definition M (A : Type) : Type := World → World * Result A.

Definition ret {A} (a : A) : M A := λ w, (w, Return a).

Definition bind {A B} (m : M A) (k : A → M B) : M B :=
  λ w, match m w with
       | (w', Return a) => k a w'
       | (w', Raise e) => (w', Raise e)
       end.

Notation "'do' x <- m ;; k" := (bind m (λ x, k))
  (at level 10, x pattern, m at level 99, k at level 200).

(** A handler is a callable taking one [FailureData]; this function gives
    whether a call of it returns ([None]) or raises. What a handler writes is
    not part of it: the call of the handler is the last step of [report], so
    the writes of a handler are writes made to the store once [report] has
    built and handed over the record, see [Write] below. *)
Definition Handler : Type := DictStore → FailureData.t → option BaseException.

Definition datetime_now : M Time := λ w, (w, Return (clock w)).

(** Allocation of a new dictionary object holding [d]. *)
Definition new_dict (d : Dict) : M loc :=
  λ w, let l := fresh (dom (dicts w)) in
       (mkWorld (<[l := d]> (dicts w)) (handled w) (clock w), Return l).

Definition call_handler (h : Handler) (fd : FailureData.t) : M unit :=
  λ w, let w' := mkWorld (dicts w) (handled w ++ [fd]) (clock w) in
       (w', match h (dicts w') fd with
            | None => Return tt
            | Some e => Raise e
            end).

(** Writes to an existing dictionary object, by whoever holds a reference to
    it (a handler through [failure.details], the owner of a reporter through
    its keyword dictionary): [d[k] = v] and [d.pop(k, None)]. *)
Inductive Write :=
| SetItem (l : loc) (k : string) (v : DVal)
| Pop (l : loc) (k : string).

Definition write_target (wr : Write) : loc :=
  match wr with SetItem l _ _ | Pop l _ => l end.

Definition apply_write (wr : Write) (σ : DictStore) : DictStore :=
  match wr with
  | SetItem l k v =>
      match σ !! l with
      | Some d => <[l := <[k := v]> d]> σ
      | None => σ
      end
  | Pop l k =>
      match σ !! l with
      | Some d => <[l := delete k d]> σ
      | None => σ
      end
  end.

Definition apply_writes (writes : list Write) (σ : DictStore) : DictStore :=
  foldl (λ σ wr, apply_write wr σ) σ writes.

(** What a dictionary holds under a key, with a reference followed to the
    object it refers to. *)
Definition carried (σ : DictStore) (d : Dict) (k : string) : option (PyVal + Dict) :=
  match d !! k with
  | Some (Scalar v) => Some (inl v)
  | Some (Ref l) => Some (inr (deref σ l))
  | None => None
  end.

(** ** _Reporter *)

(** The parent link [_root] is a reference to another [_Reporter]; the
    properties below follow it recursively, and the code never assigns an
    attribute after [__init__], so a reporter is given with its chain of
    ancestors. The local details dictionary is an object in the store. *)
#[warnings="-register-all"]
Inductive _Reporter := mk_Reporter {
  _name : option string;
  _root : option _Reporter;
  _severity : option Severity;
  _details : loc;
  _handler : option Handler
}.

(** [__init__(name, severity, handler, **details)]: [details] is the new
    dictionary Python builds for the keyword arguments. *)
Definition __init__ (name : option string) (severity : option Severity)
    (handler : option Handler) (details : Dict) : M _Reporter :=
  do l <- new_dict details ;;
  ret (mk_Reporter name None severity l handler).

(** Property [name]: a reporter object is always true, a name is true when it
    is neither [None] nor empty; [self._name] is formatted by the f-string
    even when it is [None]. *)
Fixpoint name (self : _Reporter) : option string :=
  match _root self with
  | Some root =>
      match name root with
      | Some root_name =>
          if truthy (VStr root_name)
          then Some (root_name +:+ "." +:+
                     match _name self with Some n => n | None => "None" end)
          else _name self
      | None => _name self
      end
  | None => _name self
  end.

(** Property [details]: the content of the new dictionary it returns. *)
Fixpoint details (σ : DictStore) (self : _Reporter) : Dict :=
  match _root self with
  | Some root => unpack2 (details σ root) (deref σ (_details self))
  | None => deref σ (_details self)
  end.

(** Property [severity]. *)
Fixpoint severity (self : _Reporter) : option Severity :=
  match _severity self, _root self with
  | None, Some root => severity root
  | severity, _ => severity
  end.

(** Evaluation of [self.details] in the current store. *)
Definition read_details (self : _Reporter) : M Dict :=
  λ w, (w, Return (details (dicts w) self)).

(** What [report] accepts: [str | Exception]. *)
Inductive Arg :=
| ArgStr (s : string)
| ArgExc (e : Exception).

Section Reporting.
(** [pascal_to_snake] comes from [fastchain._util]. *)
Variable pascal_to_snake : string → string.

(** [report(self, arg, **details)]: the only parameters of the
    implementation are [arg] and the keyword dictionary, so every keyword
    of a call, [severity=...] included, is an entry of [details]. *)
Definition report (self : _Reporter) (arg : Arg) (details_kw : Dict) : M unit :=
  let severity := severity self in
  let handler := _handler self in
  match bool_decide (severity = Some OPTIONAL), handler with
  | true, _ | _, None => ret tt
  | false, Some handler =>
      do dt <- datetime_now ;;
      do inherited <- read_details self ;;
      let '(desc, content) :=
        match arg with
        | ArgExc (Failure description fdetails) =>
            (description, unpack2 (unpack2 inherited details_kw) fdetails)
        | ArgExc (OtherException _ _ as e) =>
            (str_of_exception e,
             <["error_type" := Scalar (VStr (pascal_to_snake (type_name_of e)))]>
               (unpack2 inherited details_kw))
        | ArgStr s =>
            (s, unpack2 inherited details_kw)
        end in
      do l <- new_dict content ;;
      call_handler handler
        (FailureData.mk (name self) desc dt severity l)
  end.

(** [__exit__(exc_type, exc_val, exc_tb)]; [exc_type] is [None] exactly
    when no exception left the block. *)
Definition __exit__ (self : _Reporter) (exc_val : option BaseException) : M bool :=
  match exc_val with
  | None => ret true
  | Some (IsException e) => do _ <- report self (ArgExc e) ∅ ;; ret true
  | Some (NotException _ _) => ret false
  end.

(** The [with self: body] statement: [__enter__] returns [self]; after the
    body, [__exit__] is called with the exception that left it, if any, and
    a true result suppresses that exception. *)
Definition with_ (self : _Reporter) (body : M unit) : M unit :=
  λ w, match body w with
       | (w1, Return _) => (do _ <- __exit__ self None ;; ret tt) w1
       | (w1, Raise e) =>
           match __exit__ self (Some e) w1 with
           | (w2, Return true) => (w2, Return tt)
           | (w2, Return false) => (w2, Raise e)
           | (w2, Raise e') => (w2, Raise e')
           end
       end.
End Reporting.

(** ** The [logging] machinery used by the default handler *)

Module logging.
Definition NOTSET : nat := 0.
Definition DEBUG : nat := 10.
Definition WARNING : nat := 30.
Definition ERROR : nat := 40.

(** Where a handler writes: [StreamHandler()] without a stream writes to
    [sys.stderr]; [FileHandler(path, mode)] writes to the file. *)
Inductive Sink :=
| Stderr
| FileSink (path : string) (mode : string).

(** A handler with its threshold and the template of its formatter
    ([None]: no formatter set, the bare message is written). *)
Record Handler := mkHandler {
  h_level : nat;
  h_formatter : option string;
  h_sink : Sink
}.

Record Logger := mkLogger {
  level : nat;
  handlers : list Handler
}.

Record LogRecord := mkRecord {
  levelno : nat;
  msg : string;
  failure_source : option string
}.

(** One emitted line: the sink, the template it is rendered with, the
    record. *)
Record Line := mkLine {
  sink : Sink;
  template : option string;
  record : LogRecord
}.

(** The loggers registered by name, the root logger every named logger
    propagates to (names are taken without dots, so the root is the only
    ancestor), and the lines written so far, oldest first. *)
Record State := mkState {
  loggers : gmap string Logger;
  root : Logger;
  written : list Line
}.

(** The state of a process that has not configured logging. *)
Definition initial : State := mkState ∅ (mkLogger WARNING []) [].

(** [logging.lastResort]: used when no handler is found on the chain. *)
Definition lastResort : Handler := mkHandler WARNING None Stderr.

(** [getLogger(name)] returns the registered logger of that name and
    registers a new one, of level NOTSET and without handlers, if there is
    none. *)
Definition getLogger (name : string) (st : State) : State :=
  match loggers st !! name with
  | Some _ => st
  | None => mkState (<[name := mkLogger NOTSET []]> (loggers st)) (root st) (written st)
  end.

Definition update (name : string) (f : Logger → Logger) (st : State) : State :=
  mkState (alter f name (loggers st)) (root st) (written st).

Definition setLevel (name : string) (lvl : nat) : State → State :=
  update name (λ lg, mkLogger lvl (handlers lg)).

Definition addHandler (name : string) (h : Handler) : State → State :=
  update name (λ lg, mkLogger (level lg) (handlers lg ++ [h])).

Definition getEffectiveLevel (lg : Logger) (st : State) : nat :=
  if Nat.eqb (level lg) NOTSET then level (root st) else level lg.

Definition handle (r : LogRecord) (h : Handler) : list Line :=
  if Nat.leb (h_level h) (levelno r)
  then [mkLine (h_sink h) (h_formatter h) r]
  else [].

(** [Logger.callHandlers]: every handler of the logger and of the root
    whose threshold admits the record handles it; when the chain holds no
    handler at all, [lastResort] handles it. *)
Definition callHandlers (lg : Logger) (r : LogRecord) (st : State) : list Line :=
  let chain := (handlers lg ++ handlers (root st)) in
  match chain with
  | [] => handle r lastResort
  | _ => flat_map (handle r) chain
  end.

(** [Logger.log(lvl, msg, extra={'failure_source': src})] on the logger
    registered as [name], in a process that uses none of [Logger.disabled],
    [logging.disable] and filters (the module uses none). *)
Definition log (name : string) (lvl : nat) (msg : string)
    (src : option string) (st : State) : State :=
  match loggers st !! name with
  | None => st
  | Some lg =>
      if Nat.leb (getEffectiveLevel lg st) lvl
      then mkState (loggers st) (root st)
             (written st ++ callHandlers lg (mkRecord lvl msg src) st)
      else st
  end.
End logging.

(** ** FailureLogger, the default handler *)

Module FailureLogger.
(** The object keeps the logger, which the registry identifies by name. *)
Record t := mk { _logger : string }.

Definition default_format : string :=
  "%(failure_source)s [%(levelname)s] :: %(message)s (%(asctime)s)".

(** [__init__(_name, _format, _file, _write_mode)], for arguments with which
    the constructor returns (a template [logging.Formatter] accepts, a file
    that can be opened in that mode). The stream handler is created and
    configured; the only [addHandler] call of the constructor is the one for
    the file handler. *)
Definition __init__ (_name _format : string) (_file : option string)
    (_write_mode : string) (st : logging.State) : logging.State * t :=
  let formatter := Some _format in
  let st := logging.getLogger _name st in
  let st := logging.setLevel _name logging.DEBUG st in
  let stream_handler := logging.mkHandler logging.DEBUG formatter logging.Stderr in
  let st :=
    match _file with
    | Some path =>
        let file_handler :=
          logging.mkHandler logging.WARNING formatter (logging.FileSink path _write_mode) in
        logging.addHandler _name file_handler st
    | None => st
    end in
  (st, mk _name).

Definition lvl_of (failure : FailureData.t) : nat :=
  if bool_decide (FailureData.severity failure = Some REQUIRED)
  then logging.ERROR else logging.WARNING.

Definition __call__ (self : t) (failure : FailureData.t)
    (st : logging.State) : logging.State :=
  logging.log (_logger self) (lvl_of failure)
    (FailureData.description failure) (FailureData.source failure) st.
End FailureLogger.

(** ** The alternate Reporter variant *)

Module Reporter.
(** Instances are mutated in place by [__call__], so they live in a heap;
    [reports] refers to a dictionary object. *)
Record t := mk {
  name : option string;
  reports : loc
}.

Record Heap := mkHeap {
  objs : gmap loc t;
  dicts : DictStore
}.

(** [__init__(name, reports=None)]: [str(name) if name else None], and
    [reports or dict()], where a dictionary is true when it is not empty. *)
Definition __init__ (name : PyVal) (reports : option loc) (h : Heap) : Heap * loc :=
  let name' := if truthy name then Some (py_str name) else None in
  let new := fresh (dom (dicts h)) in
  let '(ds, reports') :=
    match reports with
    | Some l =>
        if bool_decide (deref (dicts h) l = ∅)
        then (<[new := ∅]> (dicts h), new)
        else (dicts h, l)
    | None => (<[new := ∅]> (dicts h), new)
    end in
  let self := fresh (dom (objs h)) in
  (mkHeap (<[self := mk name' reports']> (objs h)) ds, self).

(** [__call__(name)]; the result is [None] only for a reference to no
    object, which Python cannot produce. *)
Definition __call__ (self : loc) (name : PyVal) (h : Heap) : option (Heap * loc) :=
  match objs h !! self with
  | None => None
  | Some o =>
      match name with
      | VNone => Some (h, self)
      | _ =>
          match Reporter.name o with
          | None =>
              Some (mkHeap (<[self := mk (Some (py_str name)) (reports o)]> (objs h))
                      (dicts h), self)
          | Some self_name =>
              Some (__init__ (VStr (self_name +:+ "." +:+ py_str name))
                      (Some (reports o)) h)
          end
      end
  end.
End Reporter.

(** ** Notions used to state the properties *)

(** A reporter followed by its ancestors, nearest first. *)
Fixpoint chain (self : _Reporter) : list _Reporter :=
  self :: match _root self with
          | Some root => chain root
          | None => []
          end.

(** The specification's reading of handler resolution, written from its
    words ("no handler is resolvable from the Reporter's ancestor chain"):
    the first handler found on the chain. The code has no such function; it
    is here to be compared with what [report] consults. *)
Definition spec_resolvable_handler (self : _Reporter) : option Handler :=
  head (omap _handler (chain self)).

(** The first severity set on the chain. *)
Definition nearest_severity (self : _Reporter) : option Severity :=
  head (omap _severity (chain self)).

(** A block that raises [e] and does nothing else. *)
Definition raising (e : BaseException) : M unit := λ w, (w, Raise e).

(** How a call of handler [h] on [fd] ends: it returns, or raises. *)
Definition outcome_of (h : Handler) (σ : DictStore) (fd : FailureData.t) : Result unit :=
  match h σ fd with
  | None => Return tt
  | Some e => Raise e
  end.

(** ** Concrete objects on which the statements are exercised *)

(** A handler that returns, one that raises. *)
Definition quiet : Handler := λ _ _, None.
Definition strict : Handler := λ _ _, Some (IsException (OtherException "RuntimeError" "stop")).

(** A stand-in for the conversion of a class name. *)
Definition snake_stub : string → string := λ s, s.

(** Two dictionaries are allocated: 1 holds [{"k": 1, "env": "prod"}], the
    details of the parent, and 2 holds [{"k": 2}], those of the child. *)
Definition example_world : World :=
  mkWorld {[ 1%positive := {[ "k" := Scalar (VInt 1); "env" := Scalar (VStr "prod") ]};
             2%positive := {[ "k" := Scalar (VInt 2) ]} ]} [] 42.

Definition parent_a : _Reporter :=
  mk_Reporter (Some "a") None (Some NORMAL) 1 (Some quiet).

(** A child of [parent_a] with no severity and no handler of its own. *)
Definition child_b : _Reporter :=
  mk_Reporter (Some "b") (Some parent_a) None 2 None.

(** A child of [parent_a] with a handler of its own. *)
Definition child_c : _Reporter :=
  mk_Reporter (Some "c") (Some parent_a) None 2 (Some quiet).

(** A root on which no severity is set. *)
Definition root_unset : _Reporter :=
  mk_Reporter (Some "r") None None 1 (Some quiet).

(** A root whose severity is OPTIONAL. *)
Definition root_optional : _Reporter :=
  mk_Reporter (Some "o") None (Some OPTIONAL) 1 (Some quiet).

(** A heap of the alternate variant: instance 1 is named [a], instance 2 has
    no name yet; both share the dictionary 1. *)
Definition example_heap : Reporter.Heap :=
  Reporter.mkHeap
    {[ 1%positive := Reporter.mk (Some "a") 1; 2%positive := Reporter.mk None 1 ]}
    {[ 1%positive := ∅ ]}.

Definition empty_heap : Reporter.Heap := Reporter.mkHeap ∅ ∅.

Definition boom : Exception := OtherException "ValueError" "boom".

(** ** Further notions, for the properties of the rest of the module *)

(** What the f-string of [name] renders for the reporter's own name. *)
Definition segment (r : _Reporter) : string := default "None" (_name r).

(** The dotted path of a chain given nearest first: the root's segment, then
    the segments down to the nearest reporter. *)
Fixpoint path_of (l : list _Reporter) : string :=
  match l with
  | [] => ""
  | [r] => segment r
  | r :: rest => path_of rest +:+ "." +:+ segment r
  end.

(** The value of key [k] in the first local dictionary of the list that has
    the key. *)
Fixpoint lookup_chain (σ : DictStore) (k : string) (l : list _Reporter) : option DVal :=
  match l with
  | [] => None
  | r :: rest =>
      match deref σ (_details r) !! k with
      | Some v => Some v
      | None => lookup_chain σ k rest
      end
  end.

(** The recorded dispatches refer to allocated dictionaries, each to one of
    its own. *)
Definition tidy (w : World) : Prop :=
  NoDup (FailureData.details <$> handled w)
  ∧ ∀ fd, fd ∈ handled w → FailureData.details fd ∈ dom (dicts w).

(** A block that lets the clock advance to [t] and then raises [e]. *)
Definition late_raising (t : Time) (e : BaseException) : M unit :=
  λ w, (mkWorld (dicts w) (handled w) t, Raise e).

(** A grandchild of [parent_a] whose own name is not set. *)
Definition grandchild_unnamed : _Reporter :=
  mk_Reporter None (Some child_c) None 2 (Some quiet).

(** A chain on which no reporter has a name but the nearest. *)
Definition anonymous_root : _Reporter :=
  mk_Reporter None None (Some NORMAL) 1 (Some quiet).

Definition step_under_anonymous : _Reporter :=
  mk_Reporter (Some "step") (Some (mk_Reporter (Some "") (Some anonymous_root) None 2 None))
    None 2 (Some quiet).

(** A child of [parent_a] whose handler raises. *)
Definition strict_child : _Reporter :=
  mk_Reporter (Some "s") (Some parent_a) (Some REQUIRED) 2 (Some strict).

(** A heap in which instance 1, named [a], has a reports dictionary that is
    not empty. *)
Definition busy_heap : Reporter.Heap :=
  Reporter.mkHeap {[ 1%positive := Reporter.mk (Some "a") 1 ]}
    {[ 1%positive := {[ "a" := Scalar (VBool true) ]} ]}.

(** A world in which the details of a root hold a nested dictionary:
    dictionary 1 is [{"ctx": <dictionary 3>}], dictionary 3 is
    [{"user": "u1"}]. *)
Definition nested_world : World :=
  mkWorld {[ 1%positive := {[ "ctx" := Ref 3 ]};
             3%positive := {[ "user" := Scalar (VStr "u1") ]} ]} [] 42.

Definition nested_root : _Reporter :=
  mk_Reporter (Some "n") None (Some NORMAL) 1 (Some quiet).

(** A handler that raises for a REQUIRED failure and returns otherwise. *)
Definition raise_on_required : Handler :=
  λ _ fd, if bool_decide (FailureData.severity fd = Some REQUIRED)
          then Some (IsException (OtherException "RuntimeError" "required"))
          else None.

(** A child of [parent_a] reporting REQUIRED failures to that handler. *)
Definition required_child : _Reporter :=
  mk_Reporter (Some "q") (Some parent_a) (Some REQUIRED) 2 (Some raise_on_required).

(** The logging state of a process in which [logging] has been touched only
    by the given [FailureLogger] constructions, in that order. *)
Definition constructed (cfgs : list (string * string * option string * string))
    : logging.State :=
  foldl (λ st '(n, f, file, m), (FailureLogger.__init__ n f file m st).1)
    logging.initial cfgs.


(** * Properties *)

(** Induction along the parent link. *)
Lemma _Reporter_chain_ind (P : _Reporter → Prop) :
  (∀ n s d h, P (mk_Reporter n None s d h)) →
  (∀ n root s d h, P root → P (mk_Reporter n (Some root) s d h)) →
  ∀ self, P self.
Proof.
  intros Hroot Hchild. fix IH 1.
  intros [n [root|] s d h]; [apply Hchild, IH | apply Hroot].
Qed.

Lemma severity_unfold self :
  severity self =
    match _severity self with
    | Some s => Some s
    | None => match _root self with
              | Some root => severity root
              | None => None
              end
    end.
Proof. destruct self as [n [root|] [s|] d h]; reflexivity. Qed.

Lemma severity_nearest self : severity self = nearest_severity self.
Proof.
  induction self as [n s d h | n root s d h IH] using _Reporter_chain_ind.
  - by destruct s.
  - rewrite severity_unfold. unfold nearest_severity in *. simpl.
    destruct s; [reflexivity | exact IH].
Qed.

Lemma nearest_severity_is_Some self :
  (∃ r, r ∈ chain self ∧ is_Some (_severity r)) → is_Some (nearest_severity self).
Proof.
  unfold nearest_severity. intros (r & Hin & [s Hs]).
  assert (Hmem : s ∈ omap _severity (chain self)).
  { apply list_elem_of_omap. eauto. }
  destruct (omap _severity (chain self)); [by apply not_elem_of_nil in Hmem | by eexists].
Qed.

Lemma apply_write_other (wr : Write) (σ : DictStore) (l : loc) :
  write_target wr ≠ l → apply_write wr σ !! l = σ !! l.
Proof.
  intros Hne. destruct wr as [l' k v|l' k]; simpl in *;
    (destruct (σ !! l'); [by rewrite lookup_insert_ne | reflexivity]).
Qed.

Lemma apply_writes_other (writes : list Write) (σ : DictStore) (l : loc) :
  Forall (λ wr, write_target wr ≠ l) writes →
  apply_writes writes σ !! l = σ !! l.
Proof.
  unfold apply_writes. intros Hall. revert σ.
  induction Hall as [|wr writes Hwr _ IH]; intros σ; [reflexivity|].
  simpl. rewrite IH. by apply apply_write_other.
Qed.

Section ReportFacts.
Variable pascal_to_snake : string → string.
Implicit Types (self root : _Reporter) (arg : Arg) (kw : Dict) (w : World)
  (h : Handler) (fd : FailureData.t).

Local Abbreviation report_ := (report pascal_to_snake).
Local Abbreviation exit_ := (__exit__ pascal_to_snake).
Local Abbreviation scope_ := (with_ pascal_to_snake).

Lemma report_skips self arg kw w :
  severity self = Some OPTIONAL ∨ _handler self = None →
  report_ self arg kw w = (w, Return tt).
Proof.
  intros Hskip. unfold report.
  destruct (bool_decide (severity self = Some OPTIONAL)) eqn:Hsev.
  - reflexivity.
  - destruct (_handler self) as [h|] eqn:Hh; [|reflexivity].
    apply bool_decide_eq_false in Hsev.
    destruct Hskip as [Hopt|Hnone]; [contradiction|discriminate].
Qed.

(** The step [report] takes when it does not skip. *)
Lemma report_dispatches self h arg kw w :
  severity self ≠ Some OPTIONAL →
  _handler self = Some h →
  let l := fresh (dom (dicts w)) in
  let inherited := details (dicts w) self in
  let desc :=
    match arg with
    | ArgExc e => str_of_exception e
    | ArgStr s => s
    end in
  let content :=
    match arg with
    | ArgExc (Failure _ fdetails) => unpack2 (unpack2 inherited kw) fdetails
    | ArgExc (OtherException tn _) =>
        <["error_type" := Scalar (VStr (pascal_to_snake tn))]> (unpack2 inherited kw)
    | ArgStr _ => unpack2 inherited kw
    end in
  let fd := FailureData.mk (name self) desc (clock w) (severity self) l in
  let σ' := <[l := content]> (dicts w) in
  report_ self arg kw w =
    (mkWorld σ' (handled w ++ [fd]) (clock w), outcome_of h σ' fd).
Proof.
  intros Hsev Hh. unfold report. rewrite Hh.
  rewrite bool_decide_eq_false_2 by assumption.
  destruct arg as [s|[d fd'|tn m]]; reflexivity.
Qed.

(** Whatever [report] does, the dictionaries that existed before it keep
    their content, and the handler invocations recorded before it stay. *)
Lemma report_preserves self arg kw w :
  (∀ l, l ∈ dom (dicts w) → dicts (report_ self arg kw w).1 !! l = dicts w !! l)
  ∧ handled w `prefix_of` handled (report_ self arg kw w).1.
Proof.
  destruct (decide (severity self = Some OPTIONAL)) as [Hs|Hs].
  { rewrite report_skips by auto. split; [auto|reflexivity]. }
  destruct (_handler self) as [h|] eqn:Hh.
  2:{ rewrite report_skips by auto. split; [auto|reflexivity]. }
  rewrite (report_dispatches self h) by assumption. simpl. split.
  - intros l Hl. apply lookup_insert_ne. intros <-.
    by apply (is_fresh (dom (dicts w))).
  - by apply prefix_app_r.
Qed.

(** C5, as the code has it: [report] returns at once, leaving the world as
    it was and calling no handler, exactly when the resolved severity is
    OPTIONAL or the reporter's own [_handler] is [None]; the handlers of the
    ancestors are not consulted. *)
Theorem report_silent_iff self arg kw w :
  (report_ self arg kw w = (w, Return tt)
     ↔ severity self = Some OPTIONAL ∨ _handler self = None)
  ∧ (handled (report_ self arg kw w).1 = handled w
     ↔ severity self = Some OPTIONAL ∨ _handler self = None).
Proof.
  assert (Hgrow : ∀ h, severity self ≠ Some OPTIONAL → _handler self = Some h →
            handled (report_ self arg kw w).1 ≠ handled w).
  { intros h Hs Hh. rewrite (report_dispatches self h) by assumption. simpl.
    intros Heq. apply (f_equal length) in Heq.
    rewrite length_app in Heq. simpl in Heq. lia. }
  split; (split; [|intros Hc; by rewrite report_skips]).
  - intros Heq.
    destruct (decide (severity self = Some OPTIONAL)) as [|Hs]; [by left|].
    destruct (_handler self) as [h|] eqn:Hh; [|by right].
    exfalso. apply (Hgrow h Hs eq_refl). by rewrite Heq.
  - intros Heq.
    destruct (decide (severity self = Some OPTIONAL)) as [|Hs]; [by left|].
    destruct (_handler self) as [h|] eqn:Hh; [|by right].
    exfalso. by apply (Hgrow h Hs eq_refl).
Qed.

(** C1, evaluated on the code: on a reporter whose resolved severity is
    NORMAL, a call [report(arg, severity=REQUIRED)] dispatches a
    [FailureData] whose severity is NORMAL; the keyword is stored in the
    details under the key "severity" (unless the details of a [Failure]
    argument replace that key). *)
Theorem report_severity_keyword_is_a_detail self h arg kw w :
  severity self = Some NORMAL →
  _handler self = Some h →
  kw !! "severity" = Some (Scalar (VSev REQUIRED)) →
  ∃ fd,
    handled (report_ self arg kw w).1 = handled w ++ [fd]
    ∧ FailureData.severity fd = Some NORMAL
    ∧ FailureData.severity fd ≠ Some REQUIRED
    ∧ ((∀ d fdetails, arg = ArgExc (Failure d fdetails) → fdetails !! "severity" = None) →
       deref (dicts (report_ self arg kw w).1) (FailureData.details fd) !! "severity"
         = Some (Scalar (VSev REQUIRED))).
Proof.
  intros Hs Hh Hkw.
  rewrite (report_dispatches self h) by (congruence || assumption).
  simpl. eexists. split; [reflexivity|]. simpl.
  split; [assumption|]. split; [congruence|].
  intros Hfail. unfold deref. rewrite lookup_insert_eq. simpl.
  unfold unpack2.
  destruct arg as [s|[d fdetails|tn m]].
  - by rewrite lookup_union_l'; [|rewrite Hkw].
  - rewrite lookup_union_r by eauto.
    by rewrite lookup_union_l'; [|rewrite Hkw].
  - rewrite lookup_insert_ne by done.
    by rewrite lookup_union_l'; [|rewrite Hkw].
Qed.

(** C2, as the code has it: the resolved severity is the local one when it
    is set and otherwise the parent's resolved severity, that is, the
    nearest severity set on the chain; it is present as soon as some
    reporter of the chain sets one, and it is the severity of the
    dispatched [FailureData]. Resolution itself applies no default. *)
Theorem severity_resolves_to_nearest self :
  severity self =
    match _severity self with
    | Some s => Some s
    | None => match _root self with
              | Some root => severity root
              | None => None
              end
    end
  ∧ severity self = nearest_severity self
  ∧ ((∃ r, r ∈ chain self ∧ is_Some (_severity r)) → is_Some (severity self))
  ∧ ∀ h arg kw w,
      _handler self = Some h →
      severity self ≠ Some OPTIONAL →
      ∃ fd, handled (report_ self arg kw w).1 = handled w ++ [fd]
            ∧ FailureData.severity fd = nearest_severity self.
Proof.
  split; [apply severity_unfold|].
  split; [apply severity_nearest|].
  split.
  - intros Hset. rewrite severity_nearest. by apply nearest_severity_is_Some.
  - intros h arg kw w Hh Hs.
    rewrite (report_dispatches self h) by assumption. simpl.
    eexists. split; [reflexivity|]. simpl. apply severity_nearest.
Qed.

(** C4, as the code has it: when the block of [with self:] raises an
    [Exception], the statement behaves as the single call
    [self.report(exc)] without keyword: nothing is dispatched and the
    statement returns when the resolved severity is OPTIONAL or the
    reporter has no handler; otherwise exactly one [FailureData] is
    dispatched, with the string form of the exception and the resolved
    severity, and the statement returns if the handler does. When the
    block raises a [BaseException] that is not an [Exception], the same
    exception leaves the statement and the world is as the block left it. *)
Theorem scope_exit self body w w1 e :
  body w = (w1, Raise e) →
  match e with
  | IsException exc =>
      scope_ self body w = report_ self (ArgExc exc) ∅ w1
      ∧ (severity self = Some OPTIONAL ∨ _handler self = None →
         scope_ self body w = (w1, Return tt))
      ∧ (∀ h, severity self ≠ Some OPTIONAL → _handler self = Some h →
         ∃ fd σ',
           scope_ self body w =
             (mkWorld σ' (handled w1 ++ [fd]) (clock w1), outcome_of h σ' fd)
           ∧ FailureData.description fd = str_of_exception exc
           ∧ FailureData.severity fd = severity self
           ∧ (h σ' fd = None → (scope_ self body w).2 = Return tt))
  | NotException _ _ => scope_ self body w = (w1, Raise e)
  end.
Proof.
  intros Hbody.
  assert (Hcall : ∀ exc, e = IsException exc →
            scope_ self body w = report_ self (ArgExc exc) ∅ w1).
  { intros exc ->. unfold with_, __exit__, bind, ret. rewrite Hbody.
    destruct (report_ self (ArgExc exc) ∅ w1) as [w2 [[]|e']]; reflexivity. }
  destruct e as [exc|tn m].
  - specialize (Hcall exc eq_refl).
    split; [exact Hcall|]. split.
    + intros Hskip. rewrite Hcall. by apply report_skips.
    + intros h Hs Hh. rewrite Hcall.
      rewrite (report_dispatches self h) by assumption.
      eexists _, _. split; [reflexivity|]. simpl.
      split; [by destruct exc|]. split; [reflexivity|].
      intros Hret. unfold outcome_of. by rewrite Hret.
  - unfold with_, __exit__, ret. by rewrite Hbody.
Qed.

(** C8: what a dispatch carries. For a [Failure], its description, and
    details in which the entries of the [Failure] come first, then those of
    the call, then the resolved details of the reporter; for another
    exception, its string form, and the details of the call over the
    resolved ones, with the key "error_type" set from the class name; for a
    string, that string, and the details of the call over the resolved
    ones. *)
Theorem report_description_and_details self h arg kw w :
  severity self ≠ Some OPTIONAL →
  _handler self = Some h →
  ∃ fd,
    handled (report_ self arg kw w).1 = handled w ++ [fd]
    ∧ let content := deref (dicts (report_ self arg kw w).1) (FailureData.details fd) in
      let inherited := details (dicts w) self in
      let call_site k := match kw !! k with
                         | Some v => Some v
                         | None => inherited !! k
                         end in
      match arg with
      | ArgExc (Failure d fdetails) =>
          FailureData.description fd = d
          ∧ ∀ k, content !! k = match fdetails !! k with
                                | Some v => Some v
                                | None => call_site k
                                end
      | ArgExc (OtherException tn m) =>
          FailureData.description fd = m
          ∧ ∀ k, content !! k = if decide (k = "error_type")
                                then Some (Scalar (VStr (pascal_to_snake tn)))
                                else call_site k
      | ArgStr s =>
          FailureData.description fd = s
          ∧ ∀ k, content !! k = call_site k
      end.
Proof.
  intros Hs Hh. rewrite (report_dispatches self h) by assumption. simpl.
  eexists. split; [reflexivity|]. simpl.
  unfold deref. rewrite lookup_insert_eq. simpl. unfold unpack2.
  assert (Hcs : ∀ k, (kw ∪ details (dicts w) self) !! k =
                     match kw !! k with
                     | Some v => Some v
                     | None => details (dicts w) self !! k
                     end).
  { intros k. rewrite lookup_union. by destruct (kw !! k), (details (dicts w) self !! k). }
  destruct arg as [s|[d fdetails|tn m]]; (split; [reflexivity|]); intros k.
  - apply Hcs.
  - rewrite lookup_union, Hcs.
    by destruct (fdetails !! k), (kw !! k), (details (dicts w) self !! k).
  - case_decide as Hk.
    + subst k. by rewrite lookup_insert_eq.
    + rewrite lookup_insert_ne by done. apply Hcs.
Qed.

(** C9, as the code has it: a dispatch constructs one [FailureData] and
    hands it to the handler; assignment to any of its fields raises; its
    details are a new dictionary object, which existed nowhere before, into
    which the entries are copied as they are, references included. So no
    write to any other dictionary (the local dictionary of a reporter among
    them) and no later [report] changes the entries of that dictionary or the
    recorded dispatches. *)
Theorem failure_data_is_a_snapshot self h arg kw w :
  severity self ≠ Some OPTIONAL →
  _handler self = Some h →
  ∃ fd,
    let w' := (report_ self arg kw w).1 in
    handled w' = handled w ++ [fd]
    ∧ (∀ f v, ∃ e, FailureData.__setattr__ fd f v = inr e)
    ∧ (FailureData.details fd ∉ dom (dicts w))
    ∧ (FailureData.details fd ∈ dom (dicts w'))
    ∧ (∀ k v,
         details (dicts w) self !! k = Some v →
         kw !! k = None →
         k ≠ "error_type" →
         (∀ d fdetails, arg = ArgExc (Failure d fdetails) → fdetails !! k = None) →
         deref (dicts w') (FailureData.details fd) !! k = Some v)
    ∧ (∀ writes : list Write,
         Forall (λ wr, write_target wr ≠ FailureData.details fd) writes →
         deref (apply_writes writes (dicts w')) (FailureData.details fd)
           = deref (dicts w') (FailureData.details fd))
    ∧ (∀ (r : _Reporter) (d' : Dict),
         _details r ∈ dom (dicts w) →
         deref (<[_details r := d']> (dicts w')) (FailureData.details fd)
           = deref (dicts w') (FailureData.details fd))
    ∧ (∀ self2 arg2 kw2,
         let w'' := (report_ self2 arg2 kw2 w').1 in
         deref (dicts w'') (FailureData.details fd)
           = deref (dicts w') (FailureData.details fd)
         ∧ handled w' `prefix_of` handled w'').
Proof.
  intros Hs Hh. rewrite (report_dispatches self h) by assumption. simpl.
  eexists. split; [reflexivity|]. simpl.
  split; [intros f v; eexists; reflexivity|].
  split; [apply is_fresh|].
  split; [rewrite dom_insert_L; set_solver|].
  split; [|split; [|split]].
  - intros k v Hk Hkw Hne Hfail. unfold deref. rewrite lookup_insert_eq. simpl.
    unfold unpack2.
    destruct arg as [s|[d fdetails|tn m]].
    + by rewrite lookup_union_r.
    + rewrite lookup_union_r by eauto. by rewrite lookup_union_r.
    + rewrite lookup_insert_ne by done. by rewrite lookup_union_r.
  - intros writes Hwrites. unfold deref. by rewrite apply_writes_other.
  - intros r d' Hr. unfold deref. rewrite lookup_insert_ne; [reflexivity|].
    intros Heq. rewrite Heq in Hr. by apply (is_fresh (dom (dicts w))).
  - intros self2 arg2 kw2.
    match goal with
    | |- context [report_ self2 arg2 kw2 ?w1] =>
        destruct (report_preserves self2 arg2 kw2 w1) as [Hd Hp]
    end.
    split; [|exact Hp].
    unfold deref. rewrite Hd; [reflexivity|].
    simpl. rewrite dom_insert_L. set_solver.
Qed.
End ReportFacts.

(** C7: the resolved details of a reporter with a parent are the resolved
    details of the parent overlaid by the local dictionary: a key of the local
    dictionary has the local value, any other key has the value resolved by
    the parent. *)
Theorem details_overlay (σ : DictStore) (self root : _Reporter) :
  _root self = Some root →
  details σ self = unpack2 (details σ root) (deref σ (_details self))
  ∧ ∀ k, details σ self !! k =
           match deref σ (_details self) !! k with
           | Some v => Some v
           | None => details σ root !! k
           end.
Proof.
  intros Hroot.
  assert (Heq : details σ self = unpack2 (details σ root) (deref σ (_details self))).
  { destruct self as [n r s d h]. simpl in *. by rewrite Hroot. }
  split; [exact Heq|].
  intros k. rewrite Heq. unfold unpack2. rewrite lookup_union.
  by destruct (deref σ (_details self) !! k), (details σ root !! k).
Qed.

(** C6: the hierarchical name of a [_Reporter] named [b] under a parent
    whose name resolves to a non-empty [a] is [a.b]; on the alternate
    variant, a call with a name on an instance named [a] creates another
    instance named [a.b] and leaves the parent as it was, a call with [None]
    returns the instance itself and changes nothing, and a call with a name
    on an instance whose name is [None] stores the name in that instance and
    returns it, creating no instance. *)
Theorem child_derivation :
  (∀ (child parent : _Reporter) (a b : string),
     _root child = Some parent → _name child = Some b →
     name parent = Some a → a ≠ "" →
     name child = Some (a +:+ "." +:+ b))
  ∧ (∀ (h : Reporter.Heap) (p rl : loc) (a b : string),
       Reporter.objs h !! p = Some (Reporter.mk (Some a) rl) →
       ∃ h' c,
         Reporter.__call__ p (VStr b) h = Some (h', c)
         ∧ c ≠ p
         ∧ Reporter.name <$> Reporter.objs h' !! c = Some (Some (a +:+ "." +:+ b))
         ∧ Reporter.objs h' !! p = Reporter.objs h !! p)
  ∧ (∀ (h : Reporter.Heap) (p : loc),
       is_Some (Reporter.objs h !! p) →
       Reporter.__call__ p VNone h = Some (h, p))
  ∧ (∀ (h : Reporter.Heap) (p rl : loc) (n : PyVal),
       Reporter.objs h !! p = Some (Reporter.mk None rl) →
       n ≠ VNone →
       ∃ h',
         Reporter.__call__ p n h = Some (h', p)
         ∧ Reporter.objs h' = <[p := Reporter.mk (Some (py_str n)) rl]> (Reporter.objs h)
         ∧ dom (Reporter.objs h') = dom (Reporter.objs h)
         ∧ Reporter.dicts h' = Reporter.dicts h).
Proof.
  repeat split.
  - intros child parent a b Hroot Hname Ha Hne.
    destruct child as [n r s d hd]. simpl in *. subst n r. rewrite Ha.
    destruct a; [done | reflexivity].
  - intros h p rl a b Hp.
    unfold Reporter.__call__. rewrite Hp. simpl.
    assert (Htruthy : truthy (VStr (a +:+ "." +:+ b)) = true).
    { simpl. destruct a; reflexivity. }
    unfold Reporter.__init__. rewrite Htruthy. simpl.
    assert (Hfresh : fresh (dom (Reporter.objs h)) ≠ p).
    { intros Heq. apply (is_fresh (dom (Reporter.objs h))).
      rewrite Heq. apply elem_of_dom. by eexists. }
    destruct (bool_decide _); eexists _, _;
      (split; [reflexivity|]); simpl;
      (split; [exact Hfresh|]);
      (split; [by rewrite lookup_insert_eq | by rewrite lookup_insert_ne]).
  - intros h p [o Ho]. unfold Reporter.__call__. by rewrite Ho.
  - intros h p rl n Hp Hn.
    unfold Reporter.__call__. rewrite Hp. simpl.
    exists (Reporter.mkHeap (<[p := Reporter.mk (Some (py_str n)) rl]> (Reporter.objs h))
              (Reporter.dicts h)).
    split; [destruct n; (congruence || reflexivity)|].
    simpl. split; [reflexivity|]. split; [|reflexivity].
    rewrite dom_insert_L. apply subseteq_union_1_L, singleton_subseteq_l.
    apply elem_of_dom. by eexists.
Qed.

(** C10: constructing the alternate variant with a name that is false gives
    exactly the instance constructed with [None], whose name is [None]; the
    first call with a name other than [None] then stores [str(name)] in that
    same instance and returns it, creating no instance, so the name given to
    the constructor is in no name derived from it. *)
Theorem falsy_name_is_dropped (v n : PyVal) (reports : option loc) (h : Reporter.Heap) :
  truthy v = false →
  n ≠ VNone →
  Reporter.__init__ v reports h = Reporter.__init__ VNone reports h
  ∧ ∃ h1 r,
      Reporter.__init__ v reports h = (h1, r)
      ∧ Reporter.name <$> Reporter.objs h1 !! r = Some None
      ∧ ∃ h2,
          Reporter.__call__ r n h1 = Some (h2, r)
          ∧ Reporter.name <$> Reporter.objs h2 !! r = Some (Some (py_str n))
          ∧ dom (Reporter.objs h2) = dom (Reporter.objs h1).
Proof.
  intros Hv Hn.
  assert (Hinit : Reporter.__init__ v reports h = Reporter.__init__ VNone reports h).
  { unfold Reporter.__init__. by rewrite Hv. }
  split; [exact Hinit|]. rewrite Hinit.
  unfold Reporter.__init__. simpl.
  destruct (match reports with
            | Some l =>
                if bool_decide (deref (Reporter.dicts h) l = ∅)
                then (<[fresh (dom (Reporter.dicts h)) := ∅]> (Reporter.dicts h),
                      fresh (dom (Reporter.dicts h)))
                else (Reporter.dicts h, l)
            | None => (<[fresh (dom (Reporter.dicts h)) := ∅]> (Reporter.dicts h),
                       fresh (dom (Reporter.dicts h)))
            end) as [ds rl] eqn:Hr.
  eexists _, _. split; [reflexivity|]. simpl.
  rewrite lookup_insert_eq. split; [reflexivity|].
  unfold Reporter.__call__. simpl. rewrite lookup_insert_eq. simpl.
  eexists. split; [destruct n; (congruence || reflexivity)|]. simpl.
  rewrite lookup_insert_eq. split; [reflexivity|].
  rewrite !dom_insert_L. apply subseteq_union_1_L, union_subseteq_l.
Qed.

(** The logger a [FailureLogger] is left with when it is the first to ask
    for that name in a process that has not configured [logging]. *)
Lemma FailureLogger_init_logger (_name _format _mode : string) (_file : option string) :
  let st := (FailureLogger.__init__ _name _format _file _mode logging.initial).1 in
  logging.loggers st !! _name =
    Some (logging.mkLogger logging.DEBUG
            match _file with
            | Some path =>
                [logging.mkHandler logging.WARNING (Some _format)
                   (logging.FileSink path _mode)]
            | None => []
            end)
  ∧ logging.root st = logging.root logging.initial
  ∧ logging.written st = []
  ∧ FailureLogger._logger
      (FailureLogger.__init__ _name _format _file _mode logging.initial).2 = _name.
Proof.
  unfold FailureLogger.__init__, logging.getLogger, logging.initial.
  cbn [logging.loggers]. rewrite lookup_empty.
  destruct _file as [path|]; cbn -[logging.DEBUG logging.WARNING logging.NOTSET];
    rewrite ?lookup_alter_eq, ?lookup_insert_eq; done.
Qed.

Lemma log_written (name : string) (lg : logging.Logger) (lvl : nat) (msg : string)
    (src : option string) (st : logging.State) :
  logging.loggers st !! name = Some lg →
  logging.getEffectiveLevel lg st ≤ lvl →
  logging.written (logging.log name lvl msg src st) =
    logging.written st ++ logging.callHandlers lg (logging.mkRecord lvl msg src) st.
Proof.
  intros Hlg Hlvl. unfold logging.log. rewrite Hlg.
  apply Nat.leb_le in Hlvl. by rewrite Hlvl.
Qed.

(** C3, evaluated on the code: in a process that has not configured
    [logging], a [FailureLogger] built with a file writes each failure to the
    file only, and one built without a file has no handler of its own, so the
    failure reaches [logging.lastResort], which writes the bare description
    to [sys.stderr] without the configured template. The stream handler the
    constructor builds handles nothing. The level is ERROR for REQUIRED and
    WARNING otherwise. *)
Theorem default_handler_stream_not_attached (_name _format _mode : string)
    (fd : FailureData.t) :
  let r := logging.mkRecord (FailureLogger.lvl_of fd)
             (FailureData.description fd) (FailureData.source fd) in
  FailureLogger.lvl_of fd =
    (if bool_decide (FailureData.severity fd = Some REQUIRED)
     then logging.ERROR else logging.WARNING)
  ∧ (∀ path,
       let '(st, fl) := FailureLogger.__init__ _name _format (Some path) _mode logging.initial in
       logging.written (FailureLogger.__call__ fl fd st)
         = [logging.mkLine (logging.FileSink path _mode) (Some _format) r])
  ∧ (let '(st, fl) := FailureLogger.__init__ _name _format None _mode logging.initial in
     logging.written (FailureLogger.__call__ fl fd st)
       = [logging.mkLine logging.Stderr None r]).
Proof.
  assert (Hlvl : logging.WARNING ≤ FailureLogger.lvl_of fd).
  { unfold FailureLogger.lvl_of, logging.WARNING, logging.ERROR.
    case_bool_decide; lia. }
  assert (Hw : Nat.leb logging.WARNING (FailureLogger.lvl_of fd) = true)
    by (by apply Nat.leb_le).
  assert (Hshape : ∀ _file,
            let st := (FailureLogger.__init__ _name _format _file _mode logging.initial).1 in
            let fl := (FailureLogger.__init__ _name _format _file _mode logging.initial).2 in
            logging.written (FailureLogger.__call__ fl fd st) =
              match _file with
              | Some path =>
                  [logging.mkLine (logging.FileSink path _mode) (Some _format)
                     (logging.mkRecord (FailureLogger.lvl_of fd)
                        (FailureData.description fd) (FailureData.source fd))]
              | None =>
                  [logging.mkLine logging.Stderr None
                     (logging.mkRecord (FailureLogger.lvl_of fd)
                        (FailureData.description fd) (FailureData.source fd))]
              end).
  { intros _file.
    destruct (FailureLogger_init_logger _name _format _mode _file)
      as (Hlg & Hroot & Hwr & Hname).
    cbv zeta. unfold FailureLogger.__call__. rewrite Hname.
    erewrite log_written; [|exact Hlg|].
    2:{ unfold logging.getEffectiveLevel. cbn [logging.level].
        unfold logging.DEBUG, logging.NOTSET, logging.WARNING in *. simpl. lia. }
    rewrite Hwr. unfold logging.callHandlers. rewrite Hroot.
    destruct _file as [path|]; cbn [logging.handlers logging.initial app flat_map];
      unfold logging.handle, logging.lastResort; cbn [logging.h_level logging.levelno];
      by rewrite Hw. }
  split; [reflexivity|].
  split.
  - intros path. specialize (Hshape (Some path)).
    by destruct (FailureLogger.__init__ _name _format (Some path) _mode logging.initial).
  - specialize (Hshape None).
    by destruct (FailureLogger.__init__ _name _format None _mode logging.initial).
Qed.

(** * The statements at concrete objects *)

Lemma report_severity_keyword_is_a_detail_witness :
  ∃ fd,
    handled (report snake_stub child_c (ArgStr "x")
               {[ "severity" := Scalar (VSev REQUIRED) ]} example_world).1 = [fd]
    ∧ FailureData.severity fd = Some NORMAL
    ∧ deref (dicts (report snake_stub child_c (ArgStr "x")
                      {[ "severity" := Scalar (VSev REQUIRED) ]} example_world).1)
        (FailureData.details fd) !! "severity" = Some (Scalar (VSev REQUIRED)).
Proof.
  destruct (report_severity_keyword_is_a_detail snake_stub child_c quiet
              (ArgStr "x") {[ "severity" := Scalar (VSev REQUIRED) ]} example_world)
    as (fd & Hh & Hs & _ & Hd); [reflexivity..|].
  exists fd. split; [exact Hh|]. split; [exact Hs|].
  apply Hd. intros d fdetails Heq. discriminate Heq.
Defined.

Lemma severity_resolves_to_nearest_witness :
  severity child_c = Some NORMAL
  ∧ is_Some (severity child_c)
  ∧ ∃ fd,
      handled (report snake_stub child_c (ArgStr "x") ∅ example_world).1
        = handled example_world ++ [fd]
      ∧ FailureData.severity fd = nearest_severity child_c.
Proof.
  destruct (severity_resolves_to_nearest snake_stub child_c) as (_ & _ & Hsome & Hfd).
  split; [reflexivity|]. split.
  - apply Hsome. exists parent_a. split.
    + simpl. right. left.
    + by eexists.
  - apply (Hfd quiet); [reflexivity | discriminate].
Defined.

Lemma scope_exit_witness :
  (∃ fd σ',
     with_ snake_stub child_c (raising (IsException boom)) example_world
       = (mkWorld σ' [fd] 42, Return tt)
     ∧ FailureData.description fd = "boom"
     ∧ FailureData.severity fd = Some NORMAL)
  ∧ with_ snake_stub child_c (raising (NotException "KeyboardInterrupt" "")) example_world
      = (example_world, Raise (NotException "KeyboardInterrupt" "")).
Proof.
  split.
  - destruct (scope_exit snake_stub child_c (raising (IsException boom))
                example_world example_world (IsException boom) eq_refl)
      as (_ & _ & Hfd).
    destruct (Hfd quiet ltac:(discriminate) eq_refl) as (fd & σ' & Heq & Hd & Hs & _).
    exists fd, σ'. split; [exact Heq|]. split; [exact Hd | exact Hs].
  - exact (scope_exit snake_stub child_c (raising (NotException "KeyboardInterrupt" ""))
             example_world example_world (NotException "KeyboardInterrupt" "") eq_refl).
Defined.

Lemma report_silent_iff_witness :
  report snake_stub root_optional (ArgStr "x") ∅ example_world = (example_world, Return tt)
  ∧ report snake_stub child_b (ArgStr "x") ∅ example_world = (example_world, Return tt)
  ∧ handled (report snake_stub child_c (ArgStr "x") ∅ example_world).1
      ≠ handled example_world.
Proof.
  split; [|split].
  - apply (report_silent_iff snake_stub root_optional). left. reflexivity.
  - apply (report_silent_iff snake_stub child_b). right. reflexivity.
  - intros Heq.
    apply (report_silent_iff snake_stub child_c) in Heq as [Ho|Hn]; discriminate.
Defined.

Lemma details_overlay_witness :
  details (dicts example_world) child_b !! "k" = Some (Scalar (VInt 2))
  ∧ details (dicts example_world) child_b !! "env" = Some (Scalar (VStr "prod")).
Proof.
  destruct (details_overlay (dicts example_world) child_b parent_a eq_refl) as [_ Hk].
  split; rewrite Hk; reflexivity.
Defined.

Lemma report_description_and_details_witness :
  ∃ fd,
    handled (report snake_stub child_c
               (ArgExc (Failure "bad input" {[ "field" := Scalar (VStr "age") ]})) ∅
               example_world).1 = handled example_world ++ [fd]
    ∧ FailureData.description fd = "bad input".
Proof.
  destruct (report_description_and_details snake_stub child_c quiet
              (ArgExc (Failure "bad input" {[ "field" := Scalar (VStr "age") ]})) ∅
              example_world ltac:(discriminate) eq_refl)
    as (fd & Hh & Hd & _).
  exists fd. split; [exact Hh | exact Hd].
Defined.

Lemma failure_data_is_a_snapshot_witness :
  ∃ fd,
    handled (report snake_stub child_c (ArgStr "x") ∅ example_world).1
      = handled example_world ++ [fd]
    ∧ deref (apply_writes [SetItem 1 "env" (Scalar (VStr "test")); Pop 2 "k"]
               (dicts (report snake_stub child_c (ArgStr "x") ∅ example_world).1))
        (FailureData.details fd)
      = deref (dicts (report snake_stub child_c (ArgStr "x") ∅ example_world).1)
          (FailureData.details fd)
    ∧ ∀ d',
        deref (<[_details parent_a := d']>
                 (dicts (report snake_stub child_c (ArgStr "x") ∅ example_world).1))
          (FailureData.details fd)
        = deref (dicts (report snake_stub child_c (ArgStr "x") ∅ example_world).1)
            (FailureData.details fd).
Proof.
  destruct (failure_data_is_a_snapshot snake_stub child_c quiet (ArgStr "x") ∅
              example_world ltac:(discriminate) eq_refl)
    as (fd & Hh & _ & Hnew & _ & _ & Hwrites & Hmut & _).
  exists fd. split; [exact Hh|]. split.
  - apply Hwrites.
    repeat constructor; simpl; intros Heq; apply Hnew; rewrite <- Heq; by vm_compute.
  - intros d'. apply (Hmut parent_a d'). by vm_compute.
Defined.

Lemma child_derivation_witness :
  name child_b = Some "a.b"
  ∧ (∃ h' c, Reporter.__call__ 1 (VStr "b") example_heap = Some (h', c)
             ∧ Reporter.name <$> Reporter.objs h' !! c = Some (Some "a.b"))
  ∧ Reporter.__call__ 1 VNone example_heap = Some (example_heap, 1%positive)
  ∧ ∃ h', Reporter.__call__ 2 (VStr "b") example_heap = Some (h', 2%positive)
          ∧ dom (Reporter.objs h') = dom (Reporter.objs example_heap).
Proof.
  destruct child_derivation as (Hname & Hchild & Habsent & Hunset).
  split; [|split; [|split]].
  - apply (Hname child_b parent_a "a" "b"); try reflexivity. discriminate.
  - destruct (Hchild example_heap 1%positive 1%positive "a" "b" eq_refl)
      as (h' & c & Hc & _ & Hn & _).
    by exists h', c.
  - apply Habsent. by eexists.
  - destruct (Hunset example_heap 2%positive 1%positive (VStr "b") eq_refl
                ltac:(discriminate))
      as (h' & Hc & _ & Hd & _).
    by exists h'.
Defined.

Lemma falsy_name_is_dropped_witness :
  Reporter.__init__ (VInt 0) None empty_heap = Reporter.__init__ VNone None empty_heap
  ∧ ∃ h1 r,
      Reporter.__init__ (VInt 0) None empty_heap = (h1, r)
      ∧ Reporter.name <$> Reporter.objs h1 !! r = Some None
      ∧ ∃ h2,
          Reporter.__call__ r (VStr "x") h1 = Some (h2, r)
          ∧ Reporter.name <$> Reporter.objs h2 !! r = Some (Some (py_str (VStr "x")))
          ∧ dom (Reporter.objs h2) = dom (Reporter.objs h1).
Proof.
  apply (falsy_name_is_dropped (VInt 0) (VStr "x") None empty_heap);
    [reflexivity | discriminate].
Defined.

(** A handler that raises: its exception leaves [report] and the [with]
    statement, after the dispatch has been recorded. *)
Example raising_handler_unwinds :
  let r := mk_Reporter (Some "r") None (Some REQUIRED) 1 (Some strict) in
  ∃ w', with_ snake_stub r (raising (IsException boom)) example_world
          = (w', Raise (IsException (OtherException "RuntimeError" "stop")))
        ∧ length (handled w') = 1.
Proof. eexists. split; reflexivity. Qed.

(** * Where the code departs from the specification's wording *)

(** Against the default of C2: on a root on which no severity is set, the
    resolved severity is [None], and the dispatched [FailureData] carries
    [None], not NORMAL. *)
Lemma unset_root_dispatches_no_severity :
  omap _severity (chain root_unset) = []
  ∧ severity root_unset ≠ Some NORMAL
  ∧ ∃ fd,
      handled (report snake_stub root_unset (ArgStr "x") ∅ example_world).1 = [fd]
      ∧ FailureData.severity fd = None
      ∧ FailureData.severity fd ≠ Some NORMAL.
Proof.
  split; [reflexivity|]. split; [discriminate|].
  eexists. split; [reflexivity|]. split; [reflexivity | discriminate].
Qed.

(** Against "exactly one report is dispatched" of C4: a reporter whose
    severity is OPTIONAL absorbs the exception and dispatches nothing. *)
Lemma optional_scope_dispatches_nothing :
  with_ snake_stub root_optional (raising (IsException boom)) example_world
    = (example_world, Return tt)
  ∧ ¬ ∃ fd,
        handled (with_ snake_stub root_optional (raising (IsException boom))
                   example_world).1 = handled example_world ++ [fd].
Proof.
  split; [reflexivity|]. intros [fd Hfd]. discriminate Hfd.
Qed.

(** Against the immutability of C9: the details of a dispatched
    [FailureData] are an ordinary dictionary, so a write through
    [failure.details] changes what the record carries; and its entries are
    copied as they are, so the dictionary held under "ctx" by the details of
    the reporter is the very object the record refers to, and a write to it
    changes what the record carries under "ctx". *)
Lemma dispatched_details_can_change :
  ∃ fd w',
    report snake_stub nested_root (ArgStr "x") ∅ nested_world = (w', Return tt)
    ∧ handled w' = [fd]
    ∧ deref (apply_writes [SetItem (FailureData.details fd) "seen" (Scalar (VBool true))]
               (dicts w')) (FailureData.details fd)
        ≠ deref (dicts w') (FailureData.details fd)
    ∧ deref (dicts w') (FailureData.details fd) !! "ctx" = Some (Ref 3)
    ∧ deref (dicts w') (_details nested_root) !! "ctx" = Some (Ref 3)
    ∧ carried (dicts w') (deref (dicts w') (FailureData.details fd)) "ctx"
        = Some (inr {[ "user" := Scalar (VStr "u1") ]})
    ∧ carried (apply_writes [SetItem 3 "user" (Scalar (VStr "u2"))] (dicts w'))
        (deref (apply_writes [SetItem 3 "user" (Scalar (VStr "u2"))] (dicts w'))
           (FailureData.details fd)) "ctx"
        = Some (inr {[ "user" := Scalar (VStr "u2") ]}).
Proof.
  eexists _, _. split; [reflexivity|]. split; [reflexivity|].
  split.
  - intros Heq. apply (f_equal (λ d : Dict, d !! "seen")) in Heq.
    vm_compute in Heq. discriminate Heq.
  - repeat split; by vm_compute.
Qed.

(** Against the "exactly when" of C5: the child has no handler of its own, a
    handler is found on its chain and its severity is NORMAL, and [report]
    does nothing. *)
Lemma silent_despite_ancestor_handler :
  ¬ (report snake_stub child_b (ArgStr "x") ∅ example_world = (example_world, Return tt)
     ↔ severity child_b = Some OPTIONAL ∨ spec_resolvable_handler child_b = None).
Proof.
  intros [Hsilent _].
  destruct (Hsilent eq_refl) as [Ho|Hn]; discriminate.
Qed.

(** * Further properties of the module *)

(** ** Names and details along the chain *)

Lemma string_nonempty_truthy (a : string) : a ≠ "" → truthy (VStr a) = true.
Proof. by destruct a. Qed.

Lemma chain_nonempty (self : _Reporter) : chain self ≠ [].
Proof. by destruct self. Qed.

Lemma dotted_nonempty (a b : string) : a +:+ "." +:+ b ≠ "".
Proof. by destruct a. Qed.

Lemma name_child n root s d h :
  name (mk_Reporter n (Some root) s d h) =
    match name root with
    | Some root_name =>
        if truthy (VStr root_name)
        then Some (root_name +:+ "." +:+ default "None" n)
        else n
    | None => n
    end.
Proof. by destruct n. Qed.

(** X1: when the root of the chain has a non-empty name, the resolved name is
    the dotted path of the whole chain, from the root down to the reporter; a
    reporter below the root whose own name is [None] contributes the segment
    "None". *)
Theorem name_is_dotted_path (self : _Reporter) :
  (∃ r0 n, last (chain self) = Some r0 ∧ _name r0 = Some n ∧ n ≠ "") →
  name self = Some (path_of (chain self)) ∧ path_of (chain self) ≠ "".
Proof.
  induction self as [n s d h | n root s d h IH] using _Reporter_chain_ind.
  - intros (r0 & n0 & Hlast & Hn & Hne). simpl in *.
    injection Hlast as <-. simpl in Hn. subst n.
    unfold segment. simpl. by split.
  - intros (r0 & n0 & Hlast & Hn & Hne).
    assert (Hlast' : last (chain root) = Some r0).
    { simpl in Hlast. pose proof (chain_nonempty root).
      destruct (chain root); [done | exact Hlast]. }
    destruct IH as [IHname IHne]; [by exists r0, n0|].
    assert (Hpath : path_of (chain (mk_Reporter n (Some root) s d h))
                    = path_of (chain root) +:+ "." +:+ default "None" n).
    { simpl. pose proof (chain_nonempty root). by destruct (chain root). }
    rewrite Hpath. split; [|apply dotted_nonempty].
    rewrite name_child, IHname.
    by rewrite string_nonempty_truthy by assumption.
Qed.

Lemma name_is_dotted_path_witness :
  name grandchild_unnamed = Some "a.c.None".
Proof.
  destruct (name_is_dotted_path grandchild_unnamed) as [Hname _].
  - exists parent_a, "a". split; [reflexivity|]. split; [reflexivity | discriminate].
  - exact Hname.
Defined.

Lemma falsy_chain_name (r : _Reporter) :
  (∀ a, a ∈ chain r → _name a = None ∨ _name a = Some "") →
  name r = None ∨ name r = Some "".
Proof.
  induction r as [n s d h | n root s d h IH] using _Reporter_chain_ind.
  - intros Hall. apply (Hall (mk_Reporter n None s d h)). simpl. left.
  - intros Hall.
    assert (Hown : n = None ∨ n = Some "").
    { apply (Hall (mk_Reporter n (Some root) s d h)). simpl. left. }
    destruct IH as [Hr|Hr].
    + intros a Ha. apply Hall. simpl. by right.
    + simpl. by rewrite Hr.
    + simpl. by rewrite Hr.
Qed.

(** X2: under ancestors none of which has a name other than [None] or the
    empty string, the resolved name is the reporter's own name, without any
    prefix. *)
Theorem name_under_unnamed_ancestors (self root : _Reporter) :
  _root self = Some root →
  (∀ a, a ∈ chain root → _name a = None ∨ _name a = Some "") →
  name self = _name self.
Proof.
  intros Hroot Hall. destruct self as [n r s d h]. simpl in *. subst r.
  destruct (falsy_chain_name root Hall) as [Hr|Hr]; by rewrite Hr.
Qed.

Lemma name_under_unnamed_ancestors_witness :
  name step_under_anonymous = Some "step".
Proof.
  apply (name_under_unnamed_ancestors step_under_anonymous
           (mk_Reporter (Some "") (Some anonymous_root) None 2 None) eq_refl).
  intros a Ha. simpl in Ha.
  apply elem_of_cons in Ha as [->|Ha]; [by right|].
  apply elem_of_cons in Ha as [->|Ha]; [by left|].
  by apply not_elem_of_nil in Ha.
Defined.

(** X3: a key of the resolved details has the value of the nearest reporter
    of the chain whose local dictionary has the key, and a key is resolved
    exactly when some local dictionary of the chain has it. *)
Theorem details_nearest_wins (σ : DictStore) (self : _Reporter) (k : string) :
  details σ self !! k = lookup_chain σ k (chain self)
  ∧ (is_Some (details σ self !! k)
     ↔ ∃ r, r ∈ chain self ∧ is_Some (deref σ (_details r) !! k)).
Proof.
  induction self as [n s d h | n root s d h [IHl IHd]] using _Reporter_chain_ind.
  - simpl. split.
    + by destruct (deref σ d !! k).
    + split.
      * intros Hk. eexists. split; [left|]. exact Hk.
      * intros (r & Hr & Hk). simpl in Hr.
        apply elem_of_cons in Hr as [->|Hr]; [exact Hk|].
        by apply not_elem_of_nil in Hr.
  - assert (Heq : details σ (mk_Reporter n (Some root) s d h) !! k =
                  match deref σ d !! k with
                  | Some v => Some v
                  | None => details σ root !! k
                  end).
    { simpl. unfold unpack2. rewrite lookup_union.
      by destruct (deref σ d !! k), (details σ root !! k). }
    split.
    + rewrite Heq. simpl. by rewrite IHl.
    + rewrite Heq. split.
      * destruct (deref σ d !! k) as [v|] eqn:Hd.
        -- intros _. eexists. split; [left|]. simpl. rewrite Hd. by eexists.
        -- intros Hk. apply IHd in Hk as (r & Hr & Hk).
           exists r. split; [|exact Hk]. simpl. by right.
      * intros (r & Hr & Hk). simpl in Hr.
        apply elem_of_cons in Hr as [->|Hr].
        -- simpl in Hk. destruct Hk as [v Hv]. rewrite Hv. by eexists.
        -- destruct (deref σ d !! k); [by eexists|].
           apply IHd. by exists r.
Qed.

Lemma details_nearest_wins_witness :
  details (dicts example_world) grandchild_unnamed !! "env" = Some (Scalar (VStr "prod"))
  ∧ is_Some (details (dicts example_world) grandchild_unnamed !! "k").
Proof.
  destruct (details_nearest_wins (dicts example_world) grandchild_unnamed "env") as [Hl _].
  destruct (details_nearest_wins (dicts example_world) grandchild_unnamed "k") as [_ Hd].
  split.
  - rewrite Hl. reflexivity.
  - apply Hd. exists parent_a. split.
    + simpl. right. right. left.
    + by eexists.
Defined.

(** ** Construction *)

(** X4: two reporters built one after the other are roots whose resolved
    name and severity are the arguments and whose resolved details are the
    keyword arguments; they never share their details dictionary, so
    replacing the content of the dictionary of one leaves what the other
    resolves. *)
Theorem constructed_reporters_are_independent
    (n1 n2 : option string) (s1 s2 : option Severity) (h1 h2 : option Handler)
    (d1 d2 : Dict) (w : World) :
  ∃ r1 r2 w2,
    (do r1 <- __init__ n1 s1 h1 d1 ;;
     do r2 <- __init__ n2 s2 h2 d2 ;;
     ret (r1, r2)) w = (w2, Return (r1, r2))
    ∧ _root r1 = None ∧ name r1 = n1 ∧ severity r1 = s1
    ∧ _details r1 ≠ _details r2
    ∧ (_details r1 ∉ dom (dicts w)) ∧ (_details r2 ∉ dom (dicts w))
    ∧ details (dicts w2) r1 = d1 ∧ details (dicts w2) r2 = d2
    ∧ (∀ d', details (<[_details r2 := d']> (dicts w2)) r1 = d1)
    ∧ (∀ d', details (<[_details r1 := d']> (dicts w2)) r2 = d2)
    ∧ (∀ l, l ∈ dom (dicts w) → dicts w2 !! l = dicts w !! l)
    ∧ handled w2 = handled w.
Proof.
  set (l1 := fresh (dom (dicts w))).
  set (l2 := fresh (dom (<[l1 := d1]> (dicts w)))).
  assert (Hl1 : l1 ∉ dom (dicts w)) by apply is_fresh.
  assert (Hl2 : l2 ∉ dom (<[l1 := d1]> (dicts w))) by apply is_fresh.
  assert (Hne : l1 ≠ l2).
  { intros Heq. apply Hl2. rewrite <- Heq, dom_insert_L.
    apply elem_of_union_l, elem_of_singleton. reflexivity. }
  assert (Hl2' : l2 ∉ dom (dicts w)).
  { intros Hin. apply Hl2. rewrite dom_insert_L. by apply elem_of_union_r. }
  exists (mk_Reporter n1 None s1 l1 h1), (mk_Reporter n2 None s2 l2 h2).
  eexists. split; [reflexivity|]. simpl.
  split; [reflexivity|]. split; [reflexivity|]. split; [by destruct s1|].
  split; [exact Hne|]. split; [exact Hl1|]. split; [exact Hl2'|].
  unfold deref. fold l1. fold l2.
  split; [by rewrite lookup_insert_ne, lookup_insert_eq|].
  split; [by rewrite lookup_insert_eq|].
  split; [intros d'; by rewrite insert_insert_eq, lookup_insert_ne, lookup_insert_eq|].
  split; [intros d'; by rewrite lookup_insert_ne, lookup_insert_eq|].
  split; [|reflexivity].
  intros l Hl. rewrite !lookup_insert_ne; [reflexivity| |]; intros <-; contradiction.
Qed.

(** ** Reporting *)

Lemma details_agree (σ1 σ2 : DictStore) (self : _Reporter) :
  (∀ r, r ∈ chain self → σ1 !! _details r = σ2 !! _details r) →
  details σ1 self = details σ2 self.
Proof.
  induction self as [n s d h | n root s d h IH] using _Reporter_chain_ind.
  - intros Hagree.
    assert (Hd : σ1 !! d = σ2 !! d).
    { apply (Hagree (mk_Reporter n None s d h)). simpl. left. }
    simpl. unfold deref. by rewrite Hd.
  - intros Hagree.
    assert (Hd : σ1 !! d = σ2 !! d).
    { apply (Hagree (mk_Reporter n (Some root) s d h)). simpl. left. }
    simpl. unfold deref. rewrite Hd.
    rewrite IH; [reflexivity|].
    intros r Hr. apply Hagree. simpl. by right.
Qed.

Section ReportMore.
Variable pascal_to_snake : string → string.
Implicit Types (self outer inner other : _Reporter) (arg : Arg) (kw : Dict)
  (w : World) (h : Handler) (fd : FailureData.t) (body : M unit).

Local Abbreviation report_ := (report pascal_to_snake).
Local Abbreviation scope_ := (with_ pascal_to_snake).

(** What a [with] statement does with the way its block ends. *)
Lemma scope_cases self body w :
  scope_ self body w =
    match body w with
    | (w1, Return _) => (w1, Return tt)
    | (w1, Raise (IsException exc)) => report_ self (ArgExc exc) ∅ w1
    | (w1, Raise (NotException tn m)) => (w1, Raise (NotException tn m))
    end.
Proof.
  unfold with_, __exit__, bind, ret.
  destruct (body w) as [w1 [[]|[exc|tn m]]]; try reflexivity.
  destruct (report_ self (ArgExc exc) ∅ w1) as [w2 [[]|e']]; reflexivity.
Qed.

(** X5: the [FailureData] dispatched for an exception leaving a [with]
    block has the resolved name of the reporter as its source and the time at
    which the block was left as its timestamp; its details are the resolved
    details of the reporter under those of a [Failure], or with the key
    "error_type" for another exception, and nothing else. *)
Theorem scope_dispatch_carries self h body w w1 exc :
  body w = (w1, Raise (IsException exc)) →
  severity self ≠ Some OPTIONAL →
  _handler self = Some h →
  ∃ fd,
    let w' := (scope_ self body w).1 in
    handled w' = handled w1 ++ [fd]
    ∧ FailureData.source fd = name self
    ∧ FailureData.datetime fd = clock w1
    ∧ clock w' = clock w1
    ∧ deref (dicts w') (FailureData.details fd) =
        match exc with
        | Failure _ fdetails => unpack2 (details (dicts w1) self) fdetails
        | OtherException tn _ =>
            <["error_type" := Scalar (VStr (pascal_to_snake tn))]> (details (dicts w1) self)
        end.
Proof.
  intros Hbody Hs Hh. rewrite scope_cases, Hbody.
  rewrite (report_dispatches pascal_to_snake self h) by assumption. simpl.
  eexists. split; [reflexivity|]. simpl.
  split; [reflexivity|]. split; [reflexivity|]. split; [reflexivity|].
  unfold deref. rewrite lookup_insert_eq. simpl. unfold unpack2.
  destruct exc as [d fdetails|tn m]; by rewrite (left_id_L ∅ (∪)).
Qed.

(** X6: the call of the handler is unguarded: [report] ends as the call of
    the handler on the dispatched record ends, so when the handler raises
    for that record, its exception leaves [report] after the dispatch was
    recorded; and it leaves the [with] statement in place of the exception
    the block raised. *)
Theorem handler_exception_propagates self h arg kw body w w0 w1 exc :
  severity self ≠ Some OPTIONAL →
  _handler self = Some h →
  body w0 = (w1, Raise (IsException exc)) →
  (∃ fd,
     handled (report_ self arg kw w).1 = handled w ++ [fd]
     ∧ (report_ self arg kw w).2 = outcome_of h (dicts (report_ self arg kw w).1) fd
     ∧ ∀ e', h (dicts (report_ self arg kw w).1) fd = Some e' →
             (report_ self arg kw w).2 = Raise e')
  ∧ (∃ fd,
       handled (scope_ self body w0).1 = handled w1 ++ [fd]
       ∧ (scope_ self body w0).2 = outcome_of h (dicts (scope_ self body w0).1) fd
       ∧ ∀ e', h (dicts (scope_ self body w0).1) fd = Some e' →
               (scope_ self body w0).2 = Raise e').
Proof.
  intros Hs Hh Hbody.
  rewrite scope_cases, Hbody.
  rewrite !(report_dispatches pascal_to_snake self h) by assumption. simpl.
  split; eexists; (split; [reflexivity|]); (split; [reflexivity|]);
    intros e' He'; unfold outcome_of; by rewrite He'.
Qed.

(** X7: a scope around a block that returns does nothing, so a fault
    absorbed by the scope of an inner reporter is not seen by the scope of an
    outer one: the nested statement is the inner statement. A
    [BaseException] that is not an [Exception] leaves both scopes with the
    world as the block left it. *)
Theorem inner_scope_shields_outer outer inner body w :
  ((with_ pascal_to_snake inner body w).2 = Return tt →
   with_ pascal_to_snake outer (with_ pascal_to_snake inner body) w
     = with_ pascal_to_snake inner body w)
  ∧ (∀ w1 tn m, body w = (w1, Raise (NotException tn m)) →
     with_ pascal_to_snake outer (with_ pascal_to_snake inner body) w
       = (w1, Raise (NotException tn m))).
Proof.
  split.
  - intros Hret. rewrite (scope_cases outer).
    destruct (scope_ inner body w) as [w1 r]. simpl in Hret. by subst r.
  - intros w1 tn m Hbody.
    rewrite (scope_cases outer), (scope_cases inner), Hbody. reflexivity.
Qed.

(** X8: when the handler of an inner reporter raises an [Exception] for the
    record dispatched for the fault of the block, that exception leaves the
    inner scope and is itself absorbed by the scope of the outer reporter,
    which reports it as any other exception; an outer reporter that
    dispatches nothing lets the nested statement return. *)
Theorem outer_scope_absorbs_handler_exception outer inner h body w w1 exc :
  body w = (w1, Raise (IsException exc)) →
  severity inner ≠ Some OPTIONAL →
  _handler inner = Some h →
  ∃ fd,
    handled (scope_ inner body w).1 = handled w1 ++ [fd]
    ∧ ∀ e2,
        h (dicts (scope_ inner body w).1) fd = Some (IsException e2) →
        scope_ outer (scope_ inner body) w
          = report_ outer (ArgExc e2) ∅ (scope_ inner body w).1
        ∧ (severity outer = Some OPTIONAL ∨ _handler outer = None →
           scope_ outer (scope_ inner body) w
             = ((scope_ inner body w).1, Return tt)).
Proof.
  intros Hbody Hs Hh.
  assert (Hinner : ∃ fd σ',
            scope_ inner body w
              = (mkWorld σ' (handled w1 ++ [fd]) (clock w1), outcome_of h σ' fd)).
  { rewrite scope_cases, Hbody.
    rewrite (report_dispatches pascal_to_snake inner h) by assumption.
    by eexists _, _. }
  destruct Hinner as (fd & σ' & Hinner).
  exists fd. rewrite (scope_cases outer), Hinner. simpl.
  split; [reflexivity|].
  intros e2 He2. unfold outcome_of. rewrite He2.
  split; [reflexivity|].
  intros Hskip. by rewrite report_skips.
Qed.

(** X9: [report] keeps the recorded dispatches tidy: each refers to an
    allocated dictionary, and no two to the same one. *)
Theorem report_keeps_tidy self arg kw w :
  tidy w → tidy (report_ self arg kw w).1.
Proof.
  intros [Hnd Hdom].
  destruct (decide (severity self = Some OPTIONAL)) as [Hs|Hs].
  { rewrite report_skips by auto. by split. }
  destruct (_handler self) as [h|] eqn:Hh.
  2:{ rewrite report_skips by auto. by split. }
  rewrite (report_dispatches pascal_to_snake self h) by assumption. simpl.
  split; simpl.
  - rewrite fmap_app. simpl. apply NoDup_app. split; [exact Hnd|].
    split; [|apply NoDup_singleton].
    intros l Hl Hl'. apply list_elem_of_singleton in Hl'. subst l.
    apply list_elem_of_fmap in Hl as (fd & Hfd & Hin).
    apply (is_fresh (dom (dicts w))). rewrite Hfd. by apply Hdom.
  - intros fd Hin. rewrite dom_insert_L.
    apply elem_of_app in Hin as [Hin|Hin].
    + apply elem_of_union_r. by apply Hdom.
    + apply list_elem_of_singleton in Hin. subst fd. simpl.
      apply elem_of_union_l, elem_of_singleton. reflexivity.
Qed.

(** X10: [report] changes the local dictionary of no reporter: whatever it
    is called with, every reporter whose dictionaries exist resolves the same
    details afterwards, so the keyword details of a call are not kept; the
    clock is only read. *)
Theorem report_leaves_reporters self arg kw other w :
  (∀ r, r ∈ chain other → _details r ∈ dom (dicts w)) →
  details (dicts (report_ self arg kw w).1) other = details (dicts w) other
  ∧ clock (report_ self arg kw w).1 = clock w.
Proof.
  intros Hwf. split.
  - apply details_agree. intros r Hr.
    by apply (report_preserves pascal_to_snake self arg kw w), Hwf.
  - destruct (decide (severity self = Some OPTIONAL)) as [Hs|Hs].
    { by rewrite report_skips by auto. }
    destruct (_handler self) as [h|] eqn:Hh.
    2:{ by rewrite report_skips by auto. }
    by rewrite (report_dispatches pascal_to_snake self h) by assumption.
Qed.
End ReportMore.

(** X11: the resolved details are computed from the dictionaries as they are
    when the property is read: after the content of the dictionary of a root
    is replaced, a child with a dictionary of its own resolves its local
    entries over the new content. *)
Theorem ancestor_mutation_is_seen (σ : DictStore) (self root : _Reporter) (d' : Dict) :
  _root self = Some root →
  _root root = None →
  _details self ≠ _details root →
  details (<[_details root := d']> σ) self = unpack2 d' (deref σ (_details self))
  ∧ ∀ k, deref σ (_details self) !! k = None →
         details (<[_details root := d']> σ) self !! k = d' !! k.
Proof.
  intros Hself Hroot Hne.
  assert (Heq : details (<[_details root := d']> σ) self
                = unpack2 d' (deref σ (_details self))).
  { destruct self as [n r s d h], root as [n' r' s' dr h']. simpl in *. subst r r'.
    simpl. unfold deref. by rewrite lookup_insert_eq, lookup_insert_ne. }
  split; [exact Heq|].
  intros k Hk. rewrite Heq. unfold unpack2. by rewrite lookup_union_r.
Qed.

Lemma scope_dispatch_carries_witness :
  ∃ fd,
    handled (with_ snake_stub child_c (late_raising 50 (IsException boom)) example_world).1
      = [fd]
    ∧ FailureData.source fd = Some "a.c"
    ∧ FailureData.datetime fd = 50.
Proof.
  destruct (scope_dispatch_carries snake_stub child_c quiet
              (late_raising 50 (IsException boom)) example_world
              (mkWorld (dicts example_world) [] 50) boom eq_refl
              ltac:(discriminate) eq_refl)
    as (fd & Hh & Hsrc & Ht & _).
  exists fd. split; [exact Hh|]. split; [exact Hsrc | exact Ht].
Defined.

Lemma handler_exception_propagates_witness :
  (report snake_stub required_child (ArgStr "x") ∅ example_world).2
    = Raise (IsException (OtherException "RuntimeError" "required"))
  ∧ (with_ snake_stub required_child (raising (IsException boom)) example_world).2
    = Raise (IsException (OtherException "RuntimeError" "required")).
Proof.
  destruct (handler_exception_propagates snake_stub required_child raise_on_required
              (ArgStr "x") ∅ (raising (IsException boom))
              example_world example_world example_world boom
              ltac:(discriminate) eq_refl eq_refl)
    as [(fd & Hfd & _ & Hr) (fd' & Hfd' & _ & Hs)].
  split.
  - apply Hr. vm_compute in Hfd. injection Hfd as <-. reflexivity.
  - apply Hs. vm_compute in Hfd'. injection Hfd' as <-. reflexivity.
Defined.

Lemma inner_scope_shields_outer_witness :
  with_ snake_stub parent_a
      (with_ snake_stub child_c (raising (IsException boom))) example_world
    = with_ snake_stub child_c (raising (IsException boom)) example_world
  ∧ with_ snake_stub parent_a
      (with_ snake_stub child_c (raising (NotException "SystemExit" ""))) example_world
    = (example_world, Raise (NotException "SystemExit" "")).
Proof.
  split.
  - apply (inner_scope_shields_outer snake_stub parent_a child_c
             (raising (IsException boom)) example_world).
    reflexivity.
  - apply (inner_scope_shields_outer snake_stub parent_a child_c
             (raising (NotException "SystemExit" "")) example_world).
    reflexivity.
Defined.

Lemma outer_scope_absorbs_handler_exception_witness :
  (with_ snake_stub root_optional
     (with_ snake_stub required_child (raising (IsException boom))) example_world).2
    = Return tt.
Proof.
  destruct (outer_scope_absorbs_handler_exception snake_stub root_optional required_child
              raise_on_required (raising (IsException boom)) example_world example_world
              boom eq_refl ltac:(discriminate) eq_refl)
    as (fd & Hfd & Hraise).
  destruct (Hraise (OtherException "RuntimeError" "required")) as [_ Hret].
  - vm_compute in Hfd. injection Hfd as <-. reflexivity.
  - rewrite Hret; [reflexivity | left; reflexivity].
Defined.

Lemma report_keeps_tidy_witness :
  tidy (report snake_stub child_c (ArgStr "y") ∅
          (report snake_stub parent_a (ArgStr "x") ∅ example_world).1).1.
Proof.
  apply report_keeps_tidy, report_keeps_tidy.
  split; [apply NoDup_nil_2|].
  intros fd Hfd. simpl in Hfd. by apply not_elem_of_nil in Hfd.
Defined.

Lemma report_leaves_reporters_witness :
  details (dicts (report snake_stub child_c (ArgStr "x")
                    {[ "k" := Scalar (VInt 9) ]} example_world).1) child_c
    = details (dicts example_world) child_c.
Proof.
  apply (report_leaves_reporters snake_stub child_c (ArgStr "x") {[ "k" := Scalar (VInt 9) ]}
           child_c example_world).
  intros r Hr. simpl in Hr.
  apply elem_of_cons in Hr as [->|Hr]; [by vm_compute|].
  apply elem_of_cons in Hr as [->|Hr]; [by vm_compute|].
  by apply not_elem_of_nil in Hr.
Defined.

Lemma ancestor_mutation_is_seen_witness :
  details (<[1%positive := {[ "env" := Scalar (VStr "test") ]}]> (dicts example_world)) child_b
    !! "env" = Some (Scalar (VStr "test")).
Proof.
  destruct (ancestor_mutation_is_seen (dicts example_world) child_b parent_a
              {[ "env" := Scalar (VStr "test") ]} eq_refl eq_refl ltac:(discriminate))
    as [_ Hk].
  exact (Hk "env" eq_refl).
Defined.

(** ** The default handler and the logger registry *)

(** What the constructor leaves in any logging state: the logger of that
    name at level DEBUG, with the file handler added after the handlers it
    had, and everything else as it was. *)
Lemma FailureLogger_init_any (st : logging.State) (_name _format _mode : string)
    (_file : option string) :
  let st' := (FailureLogger.__init__ _name _format _file _mode st).1 in
  logging.loggers st' !! _name =
    Some (logging.mkLogger logging.DEBUG
            (match logging.loggers st !! _name with
             | Some lg => logging.handlers lg
             | None => []
             end ++
             match _file with
             | Some path =>
                 [logging.mkHandler logging.WARNING (Some _format)
                    (logging.FileSink path _mode)]
             | None => []
             end))
  ∧ (∀ other, other ≠ _name →
       logging.loggers st' !! other = logging.loggers st !! other)
  ∧ logging.root st' = logging.root st
  ∧ logging.written st' = logging.written st
  ∧ FailureLogger._logger (FailureLogger.__init__ _name _format _file _mode st).2 = _name.
Proof.
  unfold FailureLogger.__init__, logging.getLogger.
  destruct (logging.loggers st !! _name) as [lg|] eqn:Hlg;
    destruct _file as [path|];
    cbn -[logging.DEBUG logging.WARNING logging.NOTSET];
    rewrite ?lookup_alter_eq, ?lookup_insert_eq, ?Hlg;
    cbn -[logging.DEBUG logging.WARNING logging.NOTSET];
    rewrite ?app_nil_r;
    (split; [reflexivity|]);
    (split; [|done]);
    intros other Hne;
    rewrite ?lookup_alter_ne, ?lookup_insert_ne by done; reflexivity.
Qed.

Lemma lvl_of_bounds (fd : FailureData.t) :
  logging.WARNING ≤ FailureLogger.lvl_of fd ∧ logging.DEBUG ≤ FailureLogger.lvl_of fd.
Proof.
  unfold FailureLogger.lvl_of, logging.WARNING, logging.ERROR, logging.DEBUG.
  case_bool_decide; lia.
Qed.

(** The file handler a constructor adds handles every failure passed to the
    resulting [FailureLogger]. *)
Lemma file_line_emitted (st : logging.State) (_name _format _mode path : string)
    (fd : FailureData.t) :
  let st' := (FailureLogger.__init__ _name _format (Some path) _mode st).1 in
  let fl := (FailureLogger.__init__ _name _format (Some path) _mode st).2 in
  logging.mkLine (logging.FileSink path _mode) (Some _format)
      (logging.mkRecord (FailureLogger.lvl_of fd)
         (FailureData.description fd) (FailureData.source fd))
    ∈ logging.written (FailureLogger.__call__ fl fd st').
Proof.
  destruct (FailureLogger_init_any st _name _format _mode (Some path))
    as (Hlg & _ & Hroot & Hwr & Hname).
  destruct (lvl_of_bounds fd) as [Hw Hd].
  cbv zeta. unfold FailureLogger.__call__. rewrite Hname.
  erewrite log_written; [|exact Hlg|exact Hd].
  rewrite Hwr. apply elem_of_app. right.
  unfold logging.callHandlers. cbn [logging.handlers].
  set (fh := logging.mkHandler logging.WARNING (Some _format)
               (logging.FileSink path _mode)).
  set (old := match logging.loggers st !! _name with
              | Some lg => logging.handlers lg
              | None => []
              end).
  set (r := logging.mkRecord _ _ _).
  assert (Hin : fh ∈ (old ++ [fh]) ++ logging.handlers
                  (logging.root (FailureLogger.__init__ _name _format (Some path) _mode st).1)).
  { apply elem_of_app. left. apply elem_of_app. right. left. }
  assert (Hline : logging.mkLine (logging.FileSink path _mode) (Some _format) r
                  ∈ logging.handle r fh).
  { unfold logging.handle. cbn [logging.h_level logging.levelno fh r].
    apply Nat.leb_le in Hw. rewrite Hw. left. }
  destruct ((old ++ [fh]) ++ logging.handlers
              (logging.root (FailureLogger.__init__ _name _format (Some path) _mode st).1))
    as [|h0 rest] eqn:Hchain.
  { by apply not_elem_of_nil in Hin. }
  apply list_elem_of_In, in_flat_map. exists fh.
  split; by apply list_elem_of_In.
Qed.

(** X12: in a process in which [logging] has been touched only by
    constructions of [FailureLogger], however many and under whatever names,
    a [FailureLogger] built with the default template and the default mode
    on a file writes every failure it is called with to that file, with that
    template, at the level of the failure. *)
Theorem failure_reaches_the_file (cfgs : list (string * string * option string * string))
    (_name path : string) (fd : FailureData.t) :
  let st' := (FailureLogger.__init__ _name FailureLogger.default_format (Some path) "a"
                (constructed cfgs)).1 in
  let fl := (FailureLogger.__init__ _name FailureLogger.default_format (Some path) "a"
               (constructed cfgs)).2 in
  logging.mkLine (logging.FileSink path "a") (Some FailureLogger.default_format)
      (logging.mkRecord
         (if bool_decide (FailureData.severity fd = Some REQUIRED)
          then logging.ERROR else logging.WARNING)
         (FailureData.description fd) (FailureData.source fd))
    ∈ logging.written (FailureLogger.__call__ fl fd st').
Proof.
  exact (file_line_emitted (constructed cfgs) _name FailureLogger.default_format "a" path fd).
Qed.

(** X13: loggers are shared by name: a second [FailureLogger] of the same
    name adds its file handler to the logger of the first, so from then on
    each failure passed to either of them is written once for each. *)
Theorem repeated_default_handler_repeats_lines
    (_name f1 f2 p1 p2 m1 m2 : string) (fd : FailureData.t) :
  let st1 := (FailureLogger.__init__ _name f1 (Some p1) m1 logging.initial).1 in
  let fl1 := (FailureLogger.__init__ _name f1 (Some p1) m1 logging.initial).2 in
  let st2 := (FailureLogger.__init__ _name f2 (Some p2) m2 st1).1 in
  let fl2 := (FailureLogger.__init__ _name f2 (Some p2) m2 st1).2 in
  let r := logging.mkRecord (FailureLogger.lvl_of fd)
             (FailureData.description fd) (FailureData.source fd) in
  logging.written (FailureLogger.__call__ fl1 fd st2)
    = [logging.mkLine (logging.FileSink p1 m1) (Some f1) r;
       logging.mkLine (logging.FileSink p2 m2) (Some f2) r]
  ∧ logging.written (FailureLogger.__call__ fl2 fd st2)
    = logging.written (FailureLogger.__call__ fl1 fd st2).
Proof.
  destruct (FailureLogger_init_logger _name f1 m1 (Some p1))
    as (Hlg1 & Hroot1 & Hwr1 & Hname1).
  destruct (FailureLogger_init_any
              (FailureLogger.__init__ _name f1 (Some p1) m1 logging.initial).1
              _name f2 m2 (Some p2))
    as (Hlg2 & _ & Hroot2 & Hwr2 & Hname2).
  rewrite Hlg1 in Hlg2. cbn [logging.handlers app] in Hlg2.
  destruct (lvl_of_bounds fd) as [Hw Hd].
  cbv zeta. unfold FailureLogger.__call__. rewrite Hname1, Hname2.
  split; [|reflexivity].
  erewrite log_written; [|exact Hlg2|exact Hd].
  rewrite Hwr2, Hwr1. unfold logging.callHandlers. rewrite Hroot2, Hroot1.
  cbn [logging.handlers logging.initial logging.root app flat_map].
  unfold logging.handle. cbn [logging.h_level logging.levelno].
  apply Nat.leb_le in Hw. by rewrite Hw.
Qed.



(** ** The alternate variant *)

(** X15: [reports or dict()]: an instance constructed with a dictionary that
    is not empty keeps that very dictionary; constructed with an empty one,
    or with none, it gets a new empty dictionary, not the one passed. *)
Theorem init_reports_or_dict (v : PyVal) (l : loc) (h : Reporter.Heap) :
  l ∈ dom (Reporter.dicts h) →
  ∃ h' r o,
    Reporter.__init__ v (Some l) h = (h', r)
    ∧ Reporter.objs h' !! r = Some o
    ∧ (r ∉ dom (Reporter.objs h))
    ∧ (deref (Reporter.dicts h) l ≠ ∅ →
       Reporter.reports o = l ∧ Reporter.dicts h' = Reporter.dicts h)
    ∧ (deref (Reporter.dicts h) l = ∅ →
       Reporter.reports o ≠ l
       ∧ (Reporter.reports o ∉ dom (Reporter.dicts h))
       ∧ deref (Reporter.dicts h') (Reporter.reports o) = ∅
       ∧ Reporter.dicts h' !! l = Reporter.dicts h !! l).
Proof.
  intros Hl. unfold Reporter.__init__.
  assert (Hfresh : fresh (dom (Reporter.dicts h)) ≠ l).
  { intros Heq. apply (is_fresh (dom (Reporter.dicts h))). by rewrite Heq. }
  case_bool_decide as Hempty; eexists _, _, _;
    (split; [reflexivity|]); simpl; rewrite lookup_insert_eq;
    (split; [reflexivity|]); (split; [apply is_fresh|]); simpl.
  - split; [done|]. intros _.
    split; [exact Hfresh|]. split; [apply is_fresh|].
    unfold deref. rewrite lookup_insert_eq. split; [reflexivity|].
    by rewrite lookup_insert_ne.
  - split; [done|]. intros Hcontra. contradiction.
Qed.

Lemma init_reports_or_dict_witness :
  ∃ h' r o,
    Reporter.__init__ (VStr "x") (Some 1%positive) example_heap = (h', r)
    ∧ Reporter.objs h' !! r = Some o
    ∧ Reporter.reports o ≠ 1%positive.
Proof.
  destruct (init_reports_or_dict (VStr "x") 1%positive example_heap)
    as (h' & r & o & Hinit & Ho & _ & _ & Hempty); [by vm_compute|].
  exists h', r, o. split; [exact Hinit|]. split; [exact Ho|].
  apply Hempty. reflexivity.
Defined.

(** X16: a call with any name other than [None] on an instance that has a
    name creates an instance named by the name of the parent, a dot and the
    string form of the given name, whatever the truth value of that name;
    every instance that existed is left as it was, and the new instance
    shares the reports dictionary of its parent only when that dictionary is
    not empty. *)
Theorem call_on_named_creates_child (h : Reporter.Heap) (p rl : loc) (a : string)
    (n : PyVal) :
  Reporter.objs h !! p = Some (Reporter.mk (Some a) rl) →
  n ≠ VNone →
  ∃ h' c o,
    Reporter.__call__ p n h = Some (h', c)
    ∧ (c ∉ dom (Reporter.objs h))
    ∧ Reporter.objs h' !! c = Some o
    ∧ Reporter.name o = Some (a +:+ "." +:+ py_str n)
    ∧ (∀ q, q ∈ dom (Reporter.objs h) → Reporter.objs h' !! q = Reporter.objs h !! q)
    ∧ (deref (Reporter.dicts h) rl ≠ ∅ → Reporter.reports o = rl)
    ∧ (deref (Reporter.dicts h) rl = ∅ → Reporter.reports o ∉ dom (Reporter.dicts h)).
Proof.
  intros Hp Hn.
  assert (Hcall : Reporter.__call__ p n h =
                  Some (Reporter.__init__ (VStr (a +:+ "." +:+ py_str n)) (Some rl) h)).
  { unfold Reporter.__call__. rewrite Hp. simpl. by destruct n. }
  rewrite Hcall. unfold Reporter.__init__.
  rewrite string_nonempty_truthy by apply dotted_nonempty.
  assert (Hframe : ∀ (o : Reporter.t) q, q ∈ dom (Reporter.objs h) →
            <[fresh (dom (Reporter.objs h)) := o]> (Reporter.objs h) !! q
              = Reporter.objs h !! q).
  { intros o q Hq. apply lookup_insert_ne. intros Heq.
    apply (is_fresh (dom (Reporter.objs h))). by rewrite Heq. }
  case_bool_decide as Hempty; eexists _, _, _;
    (split; [reflexivity|]); (split; [apply is_fresh|]); simpl;
    rewrite lookup_insert_eq; (split; [reflexivity|]); simpl;
    (split; [reflexivity|]); (split; [apply Hframe|]).
  - split; [done|]. intros _. apply is_fresh.
  - split; [done|]. intros Hcontra. contradiction.
Qed.

Lemma call_on_named_creates_child_witness :
  (∃ h' c o,
     Reporter.__call__ 1 (VInt 0) busy_heap = Some (h', c)
     ∧ Reporter.objs h' !! c = Some o
     ∧ Reporter.name o = Some "a.0"
     ∧ Reporter.reports o = 1%positive)
  ∧ ∃ h' c o,
      Reporter.__call__ 1 (VStr "b") example_heap = Some (h', c)
      ∧ Reporter.objs h' !! c = Some o
      ∧ Reporter.reports o ∉ dom (Reporter.dicts example_heap).
Proof.
  split.
  - destruct (call_on_named_creates_child busy_heap 1%positive 1%positive "a" (VInt 0)
                eq_refl ltac:(discriminate))
      as (h' & c & o & Hc & _ & Ho & Hn & _ & Hshare & _).
    exists h', c, o. split; [exact Hc|]. split; [exact Ho|]. split; [exact Hn|].
    apply Hshare. by vm_compute.
  - destruct (call_on_named_creates_child example_heap 1%positive 1%positive "a" (VStr "b")
                eq_refl ltac:(discriminate))
      as (h' & c & o & Hc & _ & Ho & _ & _ & _ & Hnew).
    exists h', c, o. split; [exact Hc|]. split; [exact Ho|].
    apply Hnew. reflexivity.
Defined.

(** X17: a call never removes an instance, changes no instance other than
    the one it is made on, and never changes an instance that has a name:
    once set, a name stays. *)
Theorem named_instances_are_never_renamed (h h' : Reporter.Heap) (self r : loc)
    (n : PyVal) :
  Reporter.__call__ self n h = Some (h', r) →
  dom (Reporter.objs h) ⊆ dom (Reporter.objs h')
  ∧ ∀ q o, Reporter.objs h !! q = Some o →
           q ≠ self ∨ is_Some (Reporter.name o) →
           Reporter.objs h' !! q = Some o.
Proof.
  unfold Reporter.__call__.
  destruct (Reporter.objs h !! self) as [os|] eqn:Hself; [|discriminate].
  assert (Hfresh : ∀ q o, Reporter.objs h !! q = Some o → fresh (dom (Reporter.objs h)) ≠ q).
  { intros q o Hq Heq. apply (is_fresh (dom (Reporter.objs h))).
    rewrite Heq. apply elem_of_dom. by eexists. }
  assert (Hnew : ∀ v l hn rn,
            Reporter.__init__ v l h = (hn, rn) →
            dom (Reporter.objs h) ⊆ dom (Reporter.objs hn)
            ∧ ∀ q o, Reporter.objs h !! q = Some o → Reporter.objs hn !! q = Some o).
  { intros v l hn rn Hinit. unfold Reporter.__init__ in Hinit.
    destruct (match l with
              | Some l0 =>
                  if bool_decide (deref (Reporter.dicts h) l0 = ∅)
                  then (<[fresh (dom (Reporter.dicts h)) := ∅]> (Reporter.dicts h),
                        fresh (dom (Reporter.dicts h)))
                  else (Reporter.dicts h, l0)
              | None => (<[fresh (dom (Reporter.dicts h)) := ∅]> (Reporter.dicts h),
                         fresh (dom (Reporter.dicts h)))
              end) as [ds rl'].
    injection Hinit as <- <-. simpl. split.
    - rewrite dom_insert_L. apply union_subseteq_r.
    - intros q o Hq. rewrite lookup_insert_ne; [exact Hq | by eapply Hfresh]. }
  intros Hcall.
  assert (Hcases :
    (h' = h)
    ∨ (Reporter.name os = None
       ∧ Reporter.objs h' = <[self := Reporter.mk (Some (py_str n)) (Reporter.reports os)]>
                              (Reporter.objs h))
    ∨ (∃ v l, Reporter.__init__ v l h = (h', r))).
  { destruct n; try (injection Hcall as <- <-; by left);
      (destruct (Reporter.name os) as [sn|] eqn:Hname;
       [right; right; injection Hcall as Hcall; eauto
       |right; left; injection Hcall as <- <-; by split]). }
  destruct Hcases as [->|[[Hnone Hobjs]|(v & l & Hinit)]].
  - split; [reflexivity|]. by intros q o Hq _.
  - rewrite Hobjs. split.
    + rewrite dom_insert_L. apply union_subseteq_r.
    + intros q o Hq [Hne|[sn Hsn]].
      * by rewrite lookup_insert_ne.
      * destruct (decide (q = self)) as [->|Hne]; [|by rewrite lookup_insert_ne].
        rewrite Hself in Hq. injection Hq as ->. congruence.
  - destruct (Hnew v l h' r Hinit) as [Hdom Hkeep].
    split; [exact Hdom|]. intros q o Hq _. by apply Hkeep.
Qed.

Lemma named_instances_are_never_renamed_witness :
  ∃ h' r,
    Reporter.__call__ 2 (VStr "x") example_heap = Some (h', r)
    ∧ Reporter.objs h' !! 1%positive = Some (Reporter.mk (Some "a") 1).
Proof.
  eexists _, _. split; [reflexivity|].
  eapply (named_instances_are_never_renamed example_heap _ 2%positive _ (VStr "x"));
    [reflexivity | reflexivity | left; discriminate].
Defined.

(** X18: from an instance constructed without a name, the first call with a
    name names the instance itself and the second creates its child: the
    names are [str(a)] and [str(a).str(b)]. The empty string, which the
    constructor takes as no name, is a name for a call. *)
Theorem derivation_from_unnamed_root (a b : PyVal) (reports : option loc)
    (h : Reporter.Heap) :
  a ≠ VNone →
  b ≠ VNone →
  ∃ h1 h2 h3 r c,
    Reporter.__init__ VNone reports h = (h1, r)
    ∧ Reporter.__call__ r a h1 = Some (h2, r)
    ∧ Reporter.__call__ r b h2 = Some (h3, c)
    ∧ c ≠ r
    ∧ Reporter.name <$> Reporter.objs h3 !! r = Some (Some (py_str a))
    ∧ Reporter.name <$> Reporter.objs h3 !! c
        = Some (Some (py_str a +:+ "." +:+ py_str b)).
Proof.
  intros Ha Hb. unfold Reporter.__init__ at 1. simpl.
  destruct (match reports with
            | Some l =>
                if bool_decide (deref (Reporter.dicts h) l = ∅)
                then (<[fresh (dom (Reporter.dicts h)) := ∅]> (Reporter.dicts h),
                      fresh (dom (Reporter.dicts h)))
                else (Reporter.dicts h, l)
            | None => (<[fresh (dom (Reporter.dicts h)) := ∅]> (Reporter.dicts h),
                       fresh (dom (Reporter.dicts h)))
            end) as [ds rl].
  set (r := fresh (dom (Reporter.objs h))).
  set (objs1 := <[r := Reporter.mk None rl]> (Reporter.objs h)).
  set (objs2 := <[r := Reporter.mk (Some (py_str a)) rl]> objs1).
  assert (Hc1 : Reporter.__call__ r a (Reporter.mkHeap objs1 ds)
                = Some (Reporter.mkHeap objs2 ds, r)).
  { unfold Reporter.__call__. simpl. unfold objs1 at 1. rewrite lookup_insert_eq.
    simpl. by destruct a. }
  assert (Hc2 : Reporter.__call__ r b (Reporter.mkHeap objs2 ds)
                = Some (Reporter.__init__ (VStr (py_str a +:+ "." +:+ py_str b))
                          (Some rl) (Reporter.mkHeap objs2 ds))).
  { unfold Reporter.__call__. simpl. unfold objs2 at 1. rewrite lookup_insert_eq.
    simpl. by destruct b. }
  destruct (Reporter.__init__ (VStr (py_str a +:+ "." +:+ py_str b)) (Some rl)
              (Reporter.mkHeap objs2 ds)) as [h3 c] eqn:Hinit.
  exists (Reporter.mkHeap objs1 ds), (Reporter.mkHeap objs2 ds), h3, r, c.
  split; [reflexivity|]. split; [exact Hc1|]. split; [exact Hc2|].
  unfold Reporter.__init__ in Hinit.
  rewrite string_nonempty_truthy in Hinit by apply dotted_nonempty.
  simpl in Hinit.
  assert (Hr : r ∈ dom objs2).
  { unfold objs2. rewrite dom_insert_L. apply elem_of_union_l, elem_of_singleton.
    reflexivity. }
  assert (Hne : fresh (dom objs2) ≠ r).
  { intros Heq. apply (is_fresh (dom objs2)). by rewrite Heq. }
  destruct (bool_decide (deref ds rl = ∅)); injection Hinit as <- <-; simpl;
    (split; [exact Hne|]);
    rewrite lookup_insert_eq, lookup_insert_ne by exact Hne;
    unfold objs2; rewrite lookup_insert_eq; by split.
Qed.

Lemma derivation_from_unnamed_root_witness :
  ∃ h1 h2 h3 r c,
    Reporter.__init__ VNone None empty_heap = (h1, r)
    ∧ Reporter.__call__ r (VStr "") h1 = Some (h2, r)
    ∧ Reporter.__call__ r (VStr "b") h2 = Some (h3, c)
    ∧ c ≠ r
    ∧ Reporter.name <$> Reporter.objs h3 !! r = Some (Some "")
    ∧ Reporter.name <$> Reporter.objs h3 !! c = Some (Some ".b").
Proof.
  apply (derivation_from_unnamed_root (VStr "") (VStr "b") None empty_heap); discriminate.
Defined.
